(** * Authorization middlewares of rebac-rbac-postgres-ts

    A shallow embedding of the two Express middlewares that take the
    authorization decisions of the repository,

      - [rbac]          (src/middleware/rbac.ts)
      - [rebacResource] (src/middleware/rebac.ts)

    together with the service [getRecordById] (src/services/record.service.ts),
    the error classes of src/utils/errors.ts and the part of the Prisma client
    these functions call.  Asynchronous code is written in a state and
    exception monad over the database and a journal of the effects performed
    (queries issued, log lines written). *)

From Stdlib Require Import ZArith Ascii String DecimalString DecimalNat.
From stdpp Require Import base list strings gmap.

Local Open Scope string_scope.
Local Open Scope list_scope.
Local Open Scope Z_scope.

(** ** JavaScript values *)

Module Js.

(** A JavaScript number that results from [parseInt] or is read from an
    integer column: NaN, an integer-valued double, or an infinity.  Both
    zeros are [Fin 0]; no code below tells them apart. *)
Inductive number : Type :=
| NaN
| Fin (z : Z)
| PosInf
| NegInf.

#[global] Instance number_eq_dec : EqDecision number.
Proof. solve_decision. Defined.

(** Nearest double of an integer, ties to even: 53 significant bits, and
    an infinity from 2^1024 on. *)
Definition roundToDouble (z : Z) : number :=
  let a := Z.abs z in
  if a <? 2 ^ 53 then Fin z
  else
    let e := Z.log2 a - 52 in
    let q := Z.shiftr a e in
    let r := a - Z.shiftl q e in
    let half := Z.shiftl 1 (e - 1) in
    let q' := if (half <? r) || ((r =? half) && Z.odd q) then q + 1 else q in
    let m := Z.shiftl q' e in
    if 2 ^ 1024 <=? m then (if 0 <? z then PosInf else NegInf)
    else Fin (Z.sgn z * m).

(** StrWhiteSpaceChar, for the code units below 256 (strings are sequences
    of 8-bit code units here): TAB, LF, VT, FF, CR, SP, NBSP. *)
Definition isWhiteSpace (c : ascii) : bool :=
  let n := Z.of_N (N_of_ascii c) in
  ((9 <=? n) && (n <=? 13)) || (n =? 32) || (n =? 160).

Fixpoint trimStart (s : string) : string :=
  match s with
  | String c s' => if isWhiteSpace c then trimStart s' else s
  | EmptyString => s
  end.

Definition digitValue (c : ascii) : option Z :=
  let n := Z.of_N (N_of_ascii c) in
  if (48 <=? n) && (n <=? 57) then Some (n - 48) else None.

(** Value of the longest prefix of decimal digits; [None] when it is
    empty. *)
Fixpoint digits (s : string) (acc : option Z) : option Z :=
  match s with
  | String c s' =>
      match digitValue c with
      | Some d => digits s' (Some (10 * default 0 acc + d))
      | None => acc
      end
  | EmptyString => acc
  end.

(** [parseInt(s, 10)]: leading white space is skipped, one sign is read,
    then the longest run of decimal digits; what follows is ignored, and
    no digit at all gives NaN. *)
Definition parseInt (s : string) : number :=
  let s0 := trimStart s in
  let '(neg, s1) :=
    match s0 with
    | String "-"%char r => (true, r)
    | String "+"%char r => (false, r)
    | _ => (false, s0)
    end in
  match digits s1 None with
  | None => NaN
  | Some m => roundToDouble (if neg then - m else m)
  end.

Definition isNaN (n : number) : bool :=
  match n with NaN => true | _ => false end.

(** [!n] on a number: true for NaN and zero. *)
Definition not (n : number) : bool :=
  match n with NaN | Fin 0 => true | _ => false end.

(** [n < k] for an integer literal [k]. *)
Definition lt (n : number) (k : Z) : bool :=
  match n with
  | NaN | PosInf => false
  | NegInf => true
  | Fin z => z <? k
  end.

(** [a === b] between a number and an integer read from the database. *)
Definition strictEq (a b : Z) : bool := a =? b.

(** A template literal, kept as its parts: the text of an interpolated
    number is not spelled out. *)
Inductive piece : Type :=
| Lit (s : string)
| Num (n : number).

Definition template : Type := list piece.

#[global] Instance piece_eq_dec : EqDecision piece.
Proof. solve_decision. Defined.

(** [Set<string>]: the elements in insertion order, each once. *)
Module Set_.
Definition t : Type := list string.
Definition new : t := [].
Definition has (s : t) (x : string) : bool := bool_decide (x ∈ s).
Definition add (s : t) (x : string) : t := if has s x then s else s ++ [x].
(** [Array.from(s)] *)
Definition toArray (s : t) : list string := s.
End Set_.

End Js.

(** ** Error classes (src/utils/errors.ts) *)

Module Errors.

Inductive class : Type :=
| BadRequest | Unauthorized | Forbidden | NotFound
| Conflict | InternalServer | Database | Validation.

#[global] Instance class_eq_dec : EqDecision class.
Proof. solve_decision. Defined.

(** An instance of [AppError]: [statusCode], [isOperational] and [name]
    are fixed by the class, as every constructor passes constants to
    [super]. *)
Record AppError : Type := mkAppError {
  cls : class;
  message : Js.template;
  code : option string
}.

Definition statusCode (e : AppError) : Z :=
  match cls e with
  | BadRequest | Validation => 400
  | Unauthorized => 401
  | Forbidden => 403
  | NotFound => 404
  | Conflict => 409
  | InternalServer | Database => 500
  end.

Definition isOperational (e : AppError) : bool :=
  match cls e with
  | InternalServer | Database => false
  | _ => true
  end.

Definition name (e : AppError) : string :=
  match cls e with
  | BadRequest => "BadRequestError"
  | Unauthorized => "UnauthorizedError"
  | Forbidden => "ForbiddenError"
  | NotFound => "NotFoundError"
  | Conflict => "ConflictError"
  | InternalServer => "InternalServerError"
  | Database => "DatabaseError"
  | Validation => "ValidationError"
  end.

(** What a [throw] or a rejected promise carries: an [AppError], or a
    value of another class (the Prisma client's errors are such). *)
Inductive thrown : Type :=
| App (e : AppError)
| Other (message : string).

#[global] Instance AppError_eq_dec : EqDecision AppError.
Proof. solve_decision. Defined.

#[global] Instance thrown_eq_dec : EqDecision thrown.
Proof. solve_decision. Defined.

(** [ValidationError extends BadRequestError]; the other classes extend
    [AppError] directly. *)
Definition extends (c d : class) : bool :=
  bool_decide (c = d) || (bool_decide (c = Validation) && bool_decide (d = BadRequest)).

Definition instanceof (e : thrown) (c : class) : bool :=
  match e with
  | App a => extends (cls a) c
  | Other _ => false
  end.

Definition BadRequestError (m : Js.template) : thrown :=
  App (mkAppError BadRequest m None).
Definition UnauthorizedError (m : Js.template) : thrown :=
  App (mkAppError Unauthorized m None).
Definition ForbiddenError (m : Js.template) : thrown :=
  App (mkAppError Forbidden m None).
Definition NotFoundError (m : Js.template) : thrown :=
  App (mkAppError NotFound m None).
Definition DatabaseError (m : Js.template) : thrown :=
  App (mkAppError Database m (Some "DATABASE_ERROR")).

End Errors.

(** ** Data model *)

Module Permission.
Record t : Type := mk { id : Z; name : string }.
End Permission.

Module RolePermission.
Record t : Type := mk { permission : Permission.t }.
End RolePermission.

Module Role.
Record t : Type := mk {
  id : Z;
  name : string;
  permissions : list RolePermission.t
}.
End Role.

Module UserRole.
Record t : Type := mk { role : Role.t }.
End UserRole.

(** [AuthRequest["user"]] (src/middleware/auth.ts): the user with the roles
    and permissions that [requireAuth] loaded. *)
Module User.
Record t : Type := mk {
  id : Z;
  email : string;
  name : option string;
  roles : list UserRole.t
}.
End User.

Module PatientRecord.
Record t : Type := mk {
  id : Z;
  patientName : string;
  data : string;
  ownerId : Z
}.

#[global] Instance patientRecord_eq_dec : EqDecision t.
Proof. solve_decision. Defined.
End PatientRecord.

Module Relationship.
Record t : Type := mk {
  subjectId : Z;
  objectId : Z;
  type : string
}.

#[global] Instance relationship_eq_dec : EqDecision t.
Proof. solve_decision. Defined.
End Relationship.

Module Params.
Record t : Type := mk { id : string }.
End Params.

(** The part of an [AuthRequest] the middlewares read: [req.user], absent
    when no user was attached, and [req.params]. *)
Module AuthRequest.
Record t : Type := mk {
  user : option User.t;
  params : Params.t
}.
End AuthRequest.

(** ** The store and the effects of a call *)

Module Prisma.

(** Modelled from the spec: the schema (prisma/schema.prisma) and the client
    generated from it are not among the sources.  The tables are the two the
    middlewares read, "Resources" with their owner and "Relationship edges"
    (section 3); their rows have the fields the sources select and write. *)
Record Db : Type := mkDb {
  patientRecord : list PatientRecord.t;
  relationship : list Relationship.t
}.

Inductive query : Type :=
| patientRecord_findUnique (id : Js.number)
| relationship_findUnique (subjectId objectId : Z) (type : string)
| relationship_create (subjectId objectId : Z) (type : string).

End Prisma.

Module Logger.

Inductive level : Type := debug | warn | error.

Inductive field : Type :=
| FNum (n : Js.number)
| FStr (s : string)
| FArr (l : list string).

Inductive meta : Type :=
| NoMeta
| Fields (fs : list (string * field))
| Caught (e : Errors.thrown).

Record entry : Type := mkEntry {
  lvl : level;
  msg : Js.template;
  mta : meta
}.

End Logger.

Inductive event : Type :=
| Issued (q : Prisma.query)
| Logged (l : Logger.entry).

(** The state a call runs in: the tables, which queries the store rejects
    (an unreachable or failing database makes the client's promise reject
    with an error of its own), and the journal of the effects so far, the
    latest last. *)
Record State : Type := mkState {
  tables : Prisma.Db;
  outage : Prisma.query -> option string;
  journal : list event
}.

Definition record (ev : event) (st : State) : State :=
  mkState (tables st) (outage st) (journal st ++ [ev]).

(** An [async] computation: it ends with a value or with a thrown value,
    in a new state. *)
Definition Async (A : Type) : Type := State -> (Errors.thrown + A) * State.

Definition ret {A} (a : A) : Async A := fun st => (inr a, st).

Definition throw {A} (e : Errors.thrown) : Async A := fun st => (inl e, st).

Definition bind {A B} (m : Async A) (k : A -> Async B) : Async B :=
  fun st =>
    match m st with
    | (inr a, st') => k a st'
    | (inl e, st') => (inl e, st')
    end.

(** [try { m } catch (error) { h error }] *)
Definition try_catch {A} (m : Async A) (h : Errors.thrown -> Async A) : Async A :=
  fun st =>
    match m st with
    | (inr a, st') => (inr a, st')
    | (inl e, st') => h e st'
    end.

Notation "'let*' x ':=' m 'in' k" := (bind m (fun x => k))
  (at level 10, x pattern, m at level 100, k at level 200).

Module PrismaClient.
Import Prisma.

(** Every call is journalled, then rejected when the store rejects it. *)
Definition call {A} (q : query) (answer : Db -> A * Db) : Async A :=
  fun st =>
    let st1 := record (Issued q) st in
    match outage st1 q with
    | Some m => (inl (Errors.Other m), st1)
    | None =>
        let '(a, db') := answer (tables st1) in
        (inr a, mkState db' (outage st1) (journal st1))
    end.

(** Modelled from the spec: the generated client is not among the sources.
    [prisma.patientRecord.findUnique({ where: { id } })] is the
    [findResourceOwner] of section 6: the row with that primary key, or
    [null] when there is none. *)
Definition patientRecord_lookup (id : Js.number) (db : Db)
  : option PatientRecord.t :=
  match id with
  | Js.Fin z => List.find (fun r => PatientRecord.id r =? z) (patientRecord db)
  | _ => None
  end.

Definition patientRecord_findUnique_ (id : Js.number)
  : Async (option PatientRecord.t) :=
  call (patientRecord_findUnique id)
       (fun db => (patientRecord_lookup id db, db)).

Definition edge_matches (subjectId objectId : Z) (type : string)
    (r : Relationship.t) : bool :=
  (Relationship.subjectId r =? subjectId)
  && (Relationship.objectId r =? objectId)
  && bool_decide (Relationship.type r = type).

(** Modelled from the spec: the generated client is not among the sources.
    [prisma.relationship.findUnique({ where: { subjectId_objectId_type:
    { subjectId, objectId, type } } })] is the [findRelationshipEdge] of
    section 6: the row with exactly that triple, or [null]. *)
Definition relationship_lookup (subjectId objectId : Z) (type : string)
    (db : Db) : option Relationship.t :=
  List.find (edge_matches subjectId objectId type) (relationship db).

Definition relationship_findUnique_ (subjectId objectId : Z) (type : string)
  : Async (option Relationship.t) :=
  call (relationship_findUnique subjectId objectId type)
       (fun db => (relationship_lookup subjectId objectId type db, db)).

(** Modelled from the spec: the generated client is not among the sources.
    [prisma.relationship.create({ data: { subjectId, objectId, type } })]
    (src/seed.ts) is the administrative write: a new row, and a failure when
    the triple is there already, as "a (subjectId, objectId, type) triple is
    unique" (section 3) over the index [subjectId_objectId_type]. *)
Definition relationship_create_ (subjectId objectId : Z) (type : string)
  : Async Relationship.t :=
  let row := Relationship.mk subjectId objectId type in
  let* created := call (relationship_create subjectId objectId type)
                     (fun db =>
                        match relationship_lookup subjectId objectId type db with
                        | Some _ => (false, db)
                        | None =>
                            (true, mkDb (patientRecord db)
                                        (relationship db ++ [row]))
                        end) in
  if created : bool then ret row
  else throw (Errors.Other "Unique constraint failed on the fields: (`subjectId`,`objectId`,`type`)").

End PrismaClient.

Module logger.
Import Logger.

Definition write (l : level) (m : Js.template) (x : meta) : Async unit :=
  fun st => (inr tt, record (Logged (mkEntry l m x)) st).

Definition debug (m : Js.template) : Async unit := write Logger.debug m NoMeta.
Definition warn (m : Js.template) (x : meta) : Async unit := write Logger.warn m x.
Definition error (m : Js.template) (e : Errors.thrown) : Async unit :=
  write Logger.error m (Caught e).
End logger.

(** ** The middlewares *)

(** How a middleware hands over: [next()] lets the request through,
    [next(error)] passes the error to the error handler. *)
Inductive handover : Type :=
| next
| next_error (e : Errors.thrown).

#[global] Instance handover_eq_dec : EqDecision handover.
Proof. solve_decision. Defined.

Definition Middleware : Type := AuthRequest.t -> State -> handover * State.

Import Js Errors.

(** *** src/middleware/rbac.ts *)

(** Lines 20 to 25: the set filled by the two nested loops. *)
Definition rbac_permissions (user : User.t) : Set_.t :=
  foldl (fun permissions userRole =>
           foldl (fun permissions rolePermission =>
                    Set_.add permissions
                      (Permission.name (RolePermission.permission rolePermission)))
                 permissions
                 (Role.permissions (UserRole.role userRole)))
        Set_.new
        (User.roles user).

Definition rbac_try (permissionName : string) (req : AuthRequest.t) : Async unit :=
  match AuthRequest.user req with
  | None => throw (UnauthorizedError [Lit "User not authenticated"])
  | Some user =>
      let permissions := rbac_permissions user in
      if Set_.has permissions permissionName then
        let* _ := logger.debug
          [Lit "RBAC check passed: User "; Num (Fin (User.id user));
           Lit " has permission "; Lit permissionName] in
        ret tt
      else
        let* _ := logger.warn
          [Lit "RBAC check failed: User "; Num (Fin (User.id user));
           Lit " lacks permission "; Lit permissionName]
          (Logger.Fields
             [("userId", Logger.FNum (Fin (User.id user)));
              ("requiredPermission", Logger.FStr permissionName);
              ("userPermissions", Logger.FArr (Set_.toArray permissions))]) in
        throw (ForbiddenError
                 [Lit "Insufficient permissions. Required: "; Lit permissionName])
  end.

(** The [catch] clause: both branches call [next(error)]; an error of
    another class is logged first. *)
Definition rbac_catch (error : thrown) : Async handover :=
  if instanceof error Forbidden || instanceof error Unauthorized then
    ret (next_error error)
  else
    let* _ := logger.error [Lit "RBAC middleware error:"] error in
    ret (next_error error).

(** The outcome of a middleware whose body is one [try]/[catch]: the
    handover its body or its [catch] clause made.  The [catch] clauses below
    only log and call [next], they throw nothing ([rbac_catch_returns],
    [rebac_catch_returns]), so the last case is never taken. *)
Definition settle (m : Async handover) (st : State) : handover * State :=
  match m st with
  | (inr h, st') => (h, st')
  | (inl e, st') => (next_error e, st')
  end.

Definition rbac (permissionName : string) : Middleware :=
  fun req =>
    settle (try_catch (let* _ := rbac_try permissionName req in ret next)
                      rbac_catch).

(** *** src/middleware/rebac.ts *)

Definition rebac_try (relationType : string) (req : AuthRequest.t) : Async unit :=
  match AuthRequest.user req with
  | None => throw (UnauthorizedError [Lit "User not authenticated"])
  | Some user =>
      let id := parseInt (Params.id (AuthRequest.params req)) in
      if Js.not id || isNaN id || lt id 1 then
        throw (BadRequestError [Lit "Invalid or missing record ID"])
      else
        let* record := PrismaClient.patientRecord_findUnique_ id in
        match record with
        | None =>
            throw (NotFoundError [Lit "Record with ID "; Num id; Lit " not found"])
        | Some record =>
            if strictEq (PatientRecord.ownerId record) (User.id user) then
              let* _ := logger.debug
                [Lit "ReBAC check passed: User "; Num (Fin (User.id user));
                 Lit " is the owner of record "; Num id] in
              ret tt
            else
              let* relationship :=
                PrismaClient.relationship_findUnique_
                  (User.id user) (PatientRecord.ownerId record) relationType in
              match relationship with
              | Some _ =>
                  let* _ := logger.debug
                    [Lit "ReBAC check passed: User "; Num (Fin (User.id user));
                     Lit " has "; Lit relationType;
                     Lit " relationship with record owner ";
                     Num (Fin (PatientRecord.ownerId record))] in
                  ret tt
              | None =>
                  let* _ := logger.warn
                    [Lit "ReBAC check failed: User "; Num (Fin (User.id user));
                     Lit " lacks "; Lit relationType;
                     Lit " relationship with record owner ";
                     Num (Fin (PatientRecord.ownerId record))]
                    (Logger.Fields
                       [("userId", Logger.FNum (Fin (User.id user)));
                        ("recordId", Logger.FNum id);
                        ("recordOwnerId",
                         Logger.FNum (Fin (PatientRecord.ownerId record)));
                        ("requiredRelationship", Logger.FStr relationType)]) in
                  throw (ForbiddenError
                           [Lit "No "; Lit relationType;
                            Lit " relationship found with record owner"])
              end
        end
  end.

Definition rebac_catch (error : thrown) : Async handover :=
  if instanceof error Forbidden || instanceof error Unauthorized
     || instanceof error BadRequest || instanceof error NotFound then
    ret (next_error error)
  else
    let* _ := logger.error [Lit "ReBAC middleware error:"] error in
    ret (next_error error).

Definition rebacResource (relationType : string) : Middleware :=
  fun req =>
    settle (try_catch (let* _ := rebac_try relationType req in ret next)
                      rebac_catch).

(** *** src/services/record.service.ts *)

Definition getRecordById (id : Js.number) : Async PatientRecord.t :=
  try_catch
    (let* record := PrismaClient.patientRecord_findUnique_ id in
     match record with
     | None =>
         throw (NotFoundError [Lit "Record with ID "; Num id; Lit " not found"])
     | Some record => ret record
     end)
    (fun error =>
       if instanceof error NotFound then throw error
       else
         let* _ := logger.error [Lit "Record fetch error:"] error in
         throw (DatabaseError [Lit "Failed to fetch record"])).

(** *** The global error handler (src/index.ts): the status it answers with *)

Definition errorHandler_status (err : thrown) : Z :=
  match err with
  | App e => statusCode e
  | Other _ => 500
  end.

(** ** Observations on a run *)

(** The store queries in the journal, in the order they were issued. *)
Definition issued (st : State) : list Prisma.query :=
  omap (fun ev => match ev with Issued q => Some q | Logged _ => None end)
       (journal st).

(** The queries a run from [st] to [st'] has added. *)
Definition added (st st' : State) : list Prisma.query :=
  drop (length (issued st)) (issued st').

(** The queries that only read. *)
Definition is_read (q : Prisma.query) : bool :=
  match q with
  | Prisma.patientRecord_findUnique _ | Prisma.relationship_findUnique _ _ _ => true
  | Prisma.relationship_create _ _ _ => false
  end.

(** The primary keys of the stored records. *)
Definition record_ids (db : Prisma.Db) : list Z :=
  PatientRecord.id <$> Prisma.patientRecord db.

(** ** The words of the specification, for comparison *)

(** Permission names one role membership grants. *)
Definition granted_by (userRole : UserRole.t) : list string :=
  (fun rp => Permission.name (RolePermission.permission rp))
    <$> Role.permissions (UserRole.role userRole).

(** "Union, over every Role the subject is a member of, of every Permission
    name assigned to that Role", as a finite set. *)
Definition ResolvePermissions_spec (user : User.t) : gset string :=
  ⋃ ((fun userRole => list_to_set (granted_by userRole)) <$> User.roles user).

(** The user with one more role membership, inserted after the first [i]. *)
Definition with_role (i : nat) (userRole : UserRole.t) (user : User.t) : User.t :=
  User.mk (User.id user) (User.email user) (User.name user)
          (take i (User.roles user) ++ userRole :: drop i (User.roles user)).

(** The same state over another relationship table. *)
Definition with_relationship (rows : list Relationship.t) (st : State) : State :=
  mkState (Prisma.mkDb (Prisma.patientRecord (tables st)) rows)
          (outage st) (journal st).

(** ** The seed (src/seed.ts), as data for examples *)

Module Seed.

Definition permRead : Permission.t := Permission.mk 1 "record:read".
Definition permWrite : Permission.t := Permission.mk 2 "record:write".

Definition doctor : Role.t :=
  Role.mk 1 "doctor" [RolePermission.mk permRead; RolePermission.mk permWrite].
Definition nurse : Role.t :=
  Role.mk 2 "nurse" [RolePermission.mk permRead].
Definition admin : Role.t :=
  Role.mk 3 "admin" [RolePermission.mk permRead; RolePermission.mk permWrite].

Definition docUser : User.t :=
  User.mk 1 "doc@example.com" (Some "Dr Alice") [UserRole.mk doctor].
Definition nurseUser : User.t :=
  User.mk 2 "nurse@example.com" (Some "Nora Nurse") [UserRole.mk nurse].
Definition patient : User.t :=
  User.mk 3 "patient@example.com" (Some "Patient Paul") [].

Definition rec1 : PatientRecord.t :=
  PatientRecord.mk 1 "Patient Paul" "Record A" 3.
Definition rec2 : PatientRecord.t :=
  PatientRecord.mk 2 "Patient Paul" "Record B" 3.

Definition db : Prisma.Db :=
  Prisma.mkDb [rec1; rec2] [Relationship.mk 1 3 "assigned_to"].

(** The seeded store, reachable, nothing done yet. *)
Definition up : State := mkState db (fun _ => None) [].

(** The seeded store while the database is unreachable. *)
Definition down : State :=
  mkState db (fun _ => Some "Can't reach database server") [].

(** The seeded store while only the relationship table cannot be read. *)
Definition edges_down : State :=
  mkState db
          (fun q => match q with
                    | Prisma.relationship_findUnique _ _ _ =>
                        Some "Can't reach database server"
                    | _ => None
                    end)
          [].

Definition request (user : option User.t) (id : string) : AuthRequest.t :=
  AuthRequest.mk user (Params.mk id).

End Seed.

(** ** More of JavaScript's strings *)

Module JsString.

(** A string or [undefined] as a condition: [undefined] and the empty
    string are falsy; the result is the string when it is truthy. *)
Definition truthy (v : option string) : option string :=
  match v with
  | Some EmptyString => None
  | _ => v
  end.

(** [s.split(sep)] for a separator of one code unit: the pieces between
    the occurrences of [sep], so one more piece than occurrences. *)
Fixpoint split (sep : ascii) (s : string) : list string :=
  match s with
  | EmptyString => [EmptyString]
  | String c s' =>
      if Ascii.eqb c sep then EmptyString :: split sep s'
      else
        match split sep s' with
        | piece :: pieces => String c piece :: pieces
        | [] => [String c EmptyString]
        end
  end.

(** [s.includes(t)] *)
Fixpoint includes (t s : string) : bool :=
  String.prefix t s
  || match s with
     | EmptyString => false
     | String _ s' => includes t s'
     end.

(** [s.startsWith(t)] *)
Definition startsWith (t s : string) : bool := String.prefix t s.

Fixpoint trimEnd (s : string) : string :=
  match s with
  | EmptyString => EmptyString
  | String c s' =>
      match trimEnd s' with
      | EmptyString => if Js.isWhiteSpace c then EmptyString else String c EmptyString
      | rest => String c rest
      end
  end.

(** [s.trim()] *)
Definition trim (s : string) : string := trimEnd (Js.trimStart s).

(** The decimal numeral of a natural number, as a URL or a variable of the
    environment spells it. *)
Definition decimal (n : Z) : string :=
  NilEmpty.string_of_uint (Nat.to_uint (Z.to_nat n)).

End JsString.

(** ** src/config.ts

    [env] is [process.env] as the module finds it, after [dotenv.config()]. *)

Module Config.

(** [string | string[]] *)
Inductive origins : Type :=
| One (o : string)
| Many (os : list string).

#[global] Instance origins_eq_dec : EqDecision origins.
Proof. solve_decision. Defined.

Record Jwt : Type := mkJwt {
  secret : string;
  issuer : option string;
  audience : option string;
  expiresIn : string
}.

Record RateLimit : Type := mkRateLimit {
  windowMs : number;
  max : number
}.

Record Security : Type := mkSecurity {
  bcryptRounds : number;
  minPasswordLength : number
}.

Record t : Type := mk {
  port : number;
  nodeEnv : string;
  databaseUrl : string;
  corsOrigin : origins;
  jwt : Jwt;
  rateLimit : RateLimit;
  security : Security
}.

(** [new Error(message)], which is no [AppError]. *)
Definition Error (message : string) : thrown := Other message.

(** [getEnvVar(name, defaultValue?)]: with [value] and [defaultValue] both
    falsy it throws; otherwise it returns [value || defaultValue]. *)
Definition getEnvVar (env : gmap string string) (name : string)
    (defaultValue : option string) : thrown + string :=
  let value := env !! name in
  match JsString.truthy value, JsString.truthy defaultValue with
  | None, None =>
      inl (Error ("Missing required environment variable: " +:+ name))
  | Some v, _ => inr v
  | None, Some d => inr d
  end.

(** [getEnvVarAsNumber(name, defaultValue?)] *)
Definition getEnvVarAsNumber (env : gmap string string) (name : string)
    (defaultValue : option number) : thrown + number :=
  let value := env !! name in
  match JsString.truthy value, defaultValue with
  | None, Some d => inr d
  | None, None =>
      inl (Error ("Missing required environment variable: " +:+ name))
  | Some v, _ =>
      let num := parseInt v in
      if isNaN num then
        inl (Error ("Invalid number for environment variable: " +:+ name))
      else inr num
  end.

(** [parseCorsOrigin(origin)] *)
Definition parseCorsOrigin (origin : string) : origins :=
  if String.eqb origin "*" then One "*"
  else if JsString.includes "," origin then
    Many (JsString.trim <$> JsString.split ","%char origin)
  else One origin.

Definition and_then {A B} (r : thrown + A) (k : A -> thrown + B) : thrown + B :=
  match r with
  | inl e => inl e
  | inr a => k a
  end.

Notation "'let?' x ':=' r 'in' k" := (and_then r (fun x => k))
  (at level 10, x pattern, r at level 100, k at level 200).

(** The object [config], its properties evaluated in the order they are
    written. *)
Definition config (env : gmap string string) : thrown + t :=
  let? port := getEnvVarAsNumber env "PORT" (Some (Fin 4090)) in
  let? nodeEnv := getEnvVar env "NODE_ENV" (Some "development") in
  let? databaseUrl := getEnvVar env "DATABASE_URL" None in
  let? corsOrigin := getEnvVar env "CORS_ORIGIN" (Some "*") in
  let? secret := getEnvVar env "JWT_SECRET" None in
  let? expiresIn := getEnvVar env "JWT_EXPIRES_IN" (Some "7d") in
  let? windowMs :=
    getEnvVarAsNumber env "RATE_LIMIT_WINDOW_MS" (Some (Fin (15 * 60 * 1000))) in
  let? max := getEnvVarAsNumber env "RATE_LIMIT_MAX" (Some (Fin 100)) in
  let? bcryptRounds := getEnvVarAsNumber env "BCRYPT_ROUNDS" (Some (Fin 10)) in
  let? minPasswordLength :=
    getEnvVarAsNumber env "MIN_PASSWORD_LENGTH" (Some (Fin 8)) in
  inr (mk port nodeEnv databaseUrl (parseCorsOrigin corsOrigin)
          (mkJwt secret (env !! "JWT_ISSUER") (env !! "JWT_AUDIENCE") expiresIn)
          (mkRateLimit windowMs max)
          (mkSecurity bcryptRounds minPasswordLength)).

(** The two [console.warn] of the validation in production. *)
Inductive warning : Type :=
| LocalhostDatabase
| WildcardCors.

(** "Validate critical configuration in production": the throw, else the
    warnings. *)
Definition validate (env : gmap string string) (config : t)
  : thrown + list warning :=
  if String.eqb (nodeEnv config) "production" then
    if String.eqb (secret (jwt config)) "secret"
       || (Z.of_nat (String.length (secret (jwt config))) <? 32)
       || bool_decide (env !! "DATABASE_URL" = Some (secret (jwt config)))
    then
      inl (Error "JWT_SECRET must be at least 32 characters and unique in production")
    else
      inr ((if String.eqb (databaseUrl config) ""
               || JsString.includes "localhost" (databaseUrl config)
            then [LocalhostDatabase] else [])
           ++ (if bool_decide (corsOrigin config = One "*")
               then [WildcardCors] else []))
  else inr [].

(** What loading the module gives: the configuration and the warnings
    printed, or the error thrown. *)
Definition load (env : gmap string string) : thrown + t * list warning :=
  let? config := config env in
  let? warnings := validate env config in
  inr (config, warnings).

End Config.

(** An environment for examples, and the configuration it loads as. *)
Module Deploy.

Definition env : gmap string string :=
  {[ "NODE_ENV" := "production";
     "PORT" := "8080";
     "DATABASE_URL" := "postgresql://app@db.internal:5432/records";
     "JWT_SECRET" := "0123456789abcdef0123456789abcdef";
     "JWT_ISSUER" := "";
     "CORS_ORIGIN" := "https://a.example.com, https://b.example.com" ]}.

Definition config : Config.t :=
  Config.mk (Fin 8080) "production"
    "postgresql://app@db.internal:5432/records"
    (Config.Many ["https://a.example.com"; "https://b.example.com"])
    (Config.mkJwt "0123456789abcdef0123456789abcdef" (Some "") None "7d")
    (Config.mkRateLimit (Fin 900000) (Fin 100))
    (Config.mkSecurity (Fin 10) (Fin 8)).

End Deploy.

(** ** src/middleware/auth.ts *)

Module Jwt.

Record VerifyOptions : Type := mkOptions {
  issuer : option string;
  audience : option string
}.

(** What [jwt.verify] does with a token: it returns the payload, of which
    the middleware reads [userId] (absent, or the integer [loginUser]
    signed), or it throws a [TokenExpiredError], another
    [JsonWebTokenError], or something else. *)
Inductive verified : Type :=
| Payload (userId : option Z)
| TokenExpiredError
| JsonWebTokenError
| Failure (message : string).

End Jwt.

(** The part of a request [requireAuth] reads. *)
Module Request.
Record t : Type := mk {
  authorization : option string;
  path : string;
  ip : option string;
  params : Params.t
}.
End Request.

(** [error.message] *)
Definition message_of (error : thrown) : template :=
  match error with
  | App e => Errors.message e
  | Other m => [Lit m]
  end.

Section Auth.

(** The configuration, the library call [jwt.verify] and the read
    [prisma.user.findUnique] of the user with roles and permissions (it
    rejects with a message, or gives [null] or the user); the user table is
    not among the tables of [Prisma.Db]. *)
Variable config : Config.t.
Variable jwt_verify : string -> string -> Jwt.VerifyOptions -> Jwt.verified.
Variable user_findUnique : Z -> string + option User.t.

Definition verifyOptions : Jwt.VerifyOptions :=
  Jwt.mkOptions (JsString.truthy (Config.issuer (Config.jwt config)))
                (JsString.truthy (Config.audience (Config.jwt config))).

Definition requireAuth_try (req : Request.t) : Async User.t :=
  match JsString.truthy (Request.authorization req) with
  | None => throw (UnauthorizedError [Lit "Missing or invalid authorization header"])
  | Some authHeader =>
      if negb (JsString.startsWith "Bearer " authHeader) then
        throw (UnauthorizedError [Lit "Missing or invalid authorization header"])
      else
        match JsString.truthy (JsString.split " "%char authHeader !! 1%nat) with
        | None => throw (UnauthorizedError [Lit "Token not provided"])
        | Some token =>
            let* userId :=
              match jwt_verify token (Config.secret (Config.jwt config))
                               verifyOptions with
              | Jwt.Payload userId => ret userId
              | Jwt.TokenExpiredError =>
                  throw (UnauthorizedError [Lit "Token expired"])
              | Jwt.JsonWebTokenError =>
                  throw (UnauthorizedError [Lit "Invalid token"])
              | Jwt.Failure m => throw (Other m)
              end in
            match userId with
            | None | Some 0 =>
                throw (UnauthorizedError [Lit "Invalid token payload"])
            | Some userId =>
                match user_findUnique userId with
                | inl m => throw (Other m)
                | inr None =>
                    let* _ := logger.warn
                      [Lit "User not found for token payload userId: ";
                       Num (Fin userId)]
                      Logger.NoMeta in
                    throw (UnauthorizedError [Lit "User not found"])
                | inr (Some user) => ret user
                end
            end
        end
  end.

Definition requireAuth_catch (req : Request.t) (error : thrown) : Async handover :=
  if instanceof error Unauthorized then
    let* _ := logger.warn
      (Lit "Authentication failed: " :: message_of error)
      (Logger.Fields
         (("path", Logger.FStr (Request.path req))
            :: match Request.ip req with
               | Some ip => [("ip", Logger.FStr ip)]
               | None => []
               end)) in
    ret (next_error error)
  else
    let* _ := logger.error [Lit "Auth middleware error:"] error in
    ret (next_error (UnauthorizedError [Lit "Authentication failed"])).

(** The middleware: the handover, and the request as the next middleware
    sees it, with [req.user] set when the user was found. *)
Definition requireAuth (req : Request.t) (st : State)
  : (handover * AuthRequest.t) * State :=
  match try_catch
          (let* user := requireAuth_try req in ret (next, Some user))
          (fun error =>
             let* h := requireAuth_catch req error in ret (h, None))
          st with
  | (inr (h, user), st') => ((h, AuthRequest.mk user (Request.params req)), st')
  | (inl e, st') => ((next_error e, AuthRequest.mk None (Request.params req)), st')
  end.

End Auth.

(** A token check and a user table for examples. *)
Module Session.

Definition jwt_verify (token secret : string) (options : Jwt.VerifyOptions)
  : Jwt.verified :=
  if String.eqb token "doc" then Jwt.Payload (Some 1)
  else if String.eqb token "old" then Jwt.TokenExpiredError
  else Jwt.JsonWebTokenError.

Definition user_findUnique (id : Z) : string + option User.t :=
  if id =? 1 then inr (Some Seed.docUser) else inr None.

Definition user_unreachable (id : Z) : string + option User.t :=
  inl "Can't reach database server".

Definition request (authorization : option string) : Request.t :=
  Request.mk authorization "/records/rbac/1" (Some "10.0.0.7") (Params.mk "1").

End Session.

(** A string of white space only, and a string that neither starts nor ends
    with white space. *)
Definition blank (s : string) : Prop :=
  Forall (fun c => isWhiteSpace c = true) (list_ascii_of_string s).

Definition trimmed (s : string) : Prop :=
  (forall c t, s = String c t -> isWhiteSpace c = false)
  /\ (forall t c, s = t +:+ String c "" -> isWhiteSpace c = false).

(** * Properties *)

(** ** [Set<string>] *)

Section SetFacts.

Implicit Types (s : Set_.t) (x y : string).

Lemma Set_has_true s x : Set_.has s x = true <-> x ∈ s.
Proof. unfold Set_.has. apply bool_decide_eq_true. Qed.

Lemma Set_has_false s x : Set_.has s x = false <-> x ∉ s.
Proof. unfold Set_.has. apply bool_decide_eq_false. Qed.

Lemma Set_add_elem s x y : y ∈ Set_.add s x <-> y ∈ s \/ y = x.
Proof.
  unfold Set_.add. destruct (Set_.has s x) eqn:E.
  - apply Set_has_true in E. split; [tauto | intros [H | ->]; assumption].
  - rewrite elem_of_app, list_elem_of_singleton. reflexivity.
Qed.

Lemma Set_add_NoDup s x : NoDup s -> NoDup (Set_.add s x).
Proof.
  intros Hs. unfold Set_.add. destruct (Set_.has s x) eqn:E; [assumption |].
  apply Set_has_false in E. apply NoDup_app. split; [assumption |].
  split; [| apply NoDup_singleton].
  intros y Hy Hx. apply list_elem_of_singleton in Hx. subst y. contradiction.
Qed.

End SetFacts.

(** ** The permission set of [rbac] *)

Section Permissions.

(** The inner loop, over the permissions of one role. *)
Let inner (permissions : Set_.t) (l : list RolePermission.t) : Set_.t :=
  foldl (fun permissions rolePermission =>
           Set_.add permissions
             (Permission.name (RolePermission.permission rolePermission)))
        permissions l.

(** The outer loop, over the role memberships. *)
Let outer (permissions : Set_.t) (l : list UserRole.t) : Set_.t :=
  foldl (fun permissions userRole =>
           inner permissions (Role.permissions (UserRole.role userRole)))
        permissions l.

Lemma inner_cons s rp l :
  inner s (rp :: l)
  = inner (Set_.add s (Permission.name (RolePermission.permission rp))) l.
Proof. reflexivity. Qed.

Lemma outer_cons s ur l :
  outer s (ur :: l) = outer (inner s (Role.permissions (UserRole.role ur))) l.
Proof. reflexivity. Qed.

Lemma inner_elem l : forall s p,
  p ∈ inner s l <->
  p ∈ s \/ p ∈ (fun rp => Permission.name (RolePermission.permission rp)) <$> l.
Proof.
  induction l as [| rp l IH]; intros s p.
  - simpl. rewrite elem_of_nil. tauto.
  - rewrite inner_cons, IH, Set_add_elem, fmap_cons, elem_of_cons. tauto.
Qed.

Lemma inner_NoDup l : forall s, NoDup s -> NoDup (inner s l).
Proof.
  induction l as [| rp l IH]; intros s Hs; [assumption |].
  rewrite inner_cons. apply IH, Set_add_NoDup, Hs.
Qed.

Lemma outer_elem l : forall s p,
  p ∈ outer s l <-> p ∈ s \/ exists userRole, userRole ∈ l /\ p ∈ granted_by userRole.
Proof.
  induction l as [| ur l IH]; intros s p.
  - simpl. split; [tauto | intros [H | (ur & Hur & _)]; [assumption |]].
    apply elem_of_nil in Hur. contradiction.
  - rewrite outer_cons, IH, inner_elem. fold (granted_by ur). split.
    + intros [[H | H] | (ur' & Hin & H)]; [tauto | right | right].
      * exists ur. split; [apply list_elem_of_here | assumption].
      * exists ur'. split; [apply list_elem_of_further, Hin | assumption].
    + intros [H | (ur' & Hin & H)]; [tauto |].
      apply elem_of_cons in Hin as [-> | Hin]; [tauto |].
      right. exists ur'. tauto.
Qed.

Lemma outer_NoDup l : forall s, NoDup s -> NoDup (outer s l).
Proof.
  induction l as [| ur l IH]; intros s Hs; [assumption |].
  rewrite outer_cons. apply IH, inner_NoDup, Hs.
Qed.

Lemma rbac_permissions_outer (user : User.t) :
  rbac_permissions user = outer Set_.new (User.roles user).
Proof. reflexivity. Qed.

Lemma rbac_permissions_elem (user : User.t) (p : string) :
  p ∈ rbac_permissions user <->
  exists userRole, userRole ∈ User.roles user /\ p ∈ granted_by userRole.
Proof.
  rewrite rbac_permissions_outer, outer_elem.
  unfold Set_.new. rewrite elem_of_nil. tauto.
Qed.

Lemma rbac_permissions_NoDup (user : User.t) : NoDup (rbac_permissions user).
Proof.
  rewrite rbac_permissions_outer. apply outer_NoDup, NoDup_nil_2.
Qed.

End Permissions.

Lemma rbac_permissions_spec (user : User.t) (p : string) :
  p ∈ rbac_permissions user <-> p ∈ ResolvePermissions_spec user.
Proof.
  rewrite rbac_permissions_elem. unfold ResolvePermissions_spec.
  rewrite elem_of_union_list. split.
  - intros (ur & Hin & Hp). exists (list_to_set (granted_by ur)). split.
    + apply list_elem_of_fmap. exists ur. split; [reflexivity | assumption].
    + apply elem_of_list_to_set, Hp.
  - intros (X & HX & Hp). apply list_elem_of_fmap in HX as (ur & -> & Hin).
    exists ur. split; [assumption |]. apply elem_of_list_to_set in Hp. exact Hp.
Qed.

(** ** [rbac] *)

Lemma rbac_catch_returns (error : thrown) (st : State) :
  exists st', rbac_catch error st = (inr (next_error error), st').
Proof.
  unfold rbac_catch.
  destruct (instanceof error Forbidden || instanceof error Unauthorized);
    eexists; reflexivity.
Qed.

(** What [rbac] hands over, read off its three exits. *)
Lemma rbac_handover (permissionName : string) (req : AuthRequest.t) (st : State) :
  fst (rbac permissionName req st) =
  match AuthRequest.user req with
  | None => next_error (UnauthorizedError [Lit "User not authenticated"])
  | Some user =>
      if Set_.has (rbac_permissions user) permissionName then next
      else next_error
             (ForbiddenError
                [Lit "Insufficient permissions. Required: "; Lit permissionName])
  end.
Proof.
  unfold rbac, settle, try_catch, bind, rbac_try.
  destruct (AuthRequest.user req) as [user |]; [| reflexivity].
  destruct (Set_.has (rbac_permissions user) permissionName); reflexivity.
Qed.

(** C4. The set [rbac] builds for a user (lines 20 to 25) lists no name
    twice and, as a set, is the union over the user's role memberships of
    the permission names of each role; the middleware lets a request of that
    user through exactly when the required name is an element of that set,
    names being compared by equality of strings, and answers with a
    [ForbiddenError] otherwise. *)
Theorem C4_permissions_are_the_union_of_the_roles
    (user : User.t) (params : Params.t) (permissionName : string) (st : State) :
  let req := AuthRequest.mk (Some user) params in
  NoDup (Set_.toArray (rbac_permissions user))
  /\ list_to_set (Set_.toArray (rbac_permissions user)) = ResolvePermissions_spec user
  /\ (Set_.has (rbac_permissions user) permissionName = true
      <-> permissionName ∈ ResolvePermissions_spec user)
  /\ (fst (rbac permissionName req st) = next
      <-> permissionName ∈ ResolvePermissions_spec user)
  /\ (fst (rbac permissionName req st)
        = next_error
            (ForbiddenError
               [Lit "Insufficient permissions. Required: "; Lit permissionName])
      <-> permissionName ∉ ResolvePermissions_spec user).
Proof.
  intros req. unfold Set_.toArray.
  assert (Hhas : Set_.has (rbac_permissions user) permissionName = true
                 <-> permissionName ∈ ResolvePermissions_spec user).
  { rewrite Set_has_true. apply rbac_permissions_spec. }
  split; [apply rbac_permissions_NoDup |].
  split.
  { apply set_eq. intros p. rewrite elem_of_list_to_set.
    apply rbac_permissions_spec. }
  split; [exact Hhas |].
  rewrite rbac_handover. subst req. cbn [AuthRequest.user].
  destruct (Set_.has (rbac_permissions user) permissionName) eqn:E.
  - split; split; try reflexivity; try discriminate.
    + intros _. apply Hhas. reflexivity.
    + intros Hn. exfalso. apply Hn, Hhas. reflexivity.
  - split; split; try reflexivity; try discriminate.
    + intros Hin. apply Hhas in Hin. discriminate.
    + intros _ Hin. apply Hhas in Hin. discriminate.
Qed.

(** C5. A permission in the set of a user is still in the set once a role
    membership is added to the user, wherever in the list of roles it is
    put. *)
Theorem C5_adding_a_role_keeps_permissions
    (user : User.t) (i : nat) (userRole : UserRole.t) (p : string) :
  Set_.has (rbac_permissions user) p = true ->
  Set_.has (rbac_permissions (with_role i userRole user)) p = true.
Proof.
  rewrite !Set_has_true, !rbac_permissions_elem.
  intros (ur & Hin & Hp). exists ur. split; [| exact Hp].
  unfold with_role. cbn [User.roles].
  rewrite <- (take_drop i (User.roles user)) in Hin.
  apply elem_of_app in Hin as [Hin | Hin].
  - apply elem_of_app. left. exact Hin.
  - apply elem_of_app. right. apply list_elem_of_further, Hin.
Qed.

Lemma C5_witness :
  Set_.has (rbac_permissions (with_role 0 (UserRole.mk Seed.nurse) Seed.docUser))
           "record:write" = true.
Proof.
  apply (C5_adding_a_role_keeps_permissions Seed.docUser 0 (UserRole.mk Seed.nurse)
           "record:write").
  vm_compute. reflexivity.
Defined.

(** C6. For a user without role memberships the set is empty, it is a value
    and no error, and [rbac] answers every required permission with a
    [ForbiddenError]. *)
Theorem C6_no_roles_no_permissions
    (user : User.t) (req : AuthRequest.t) (permissionName : string) (st : State) :
  AuthRequest.user req = Some user ->
  User.roles user = [] ->
  rbac_permissions user = Set_.new
  /\ Set_.has (rbac_permissions user) permissionName = false
  /\ fst (rbac permissionName req st)
     = next_error
         (ForbiddenError
            [Lit "Insufficient permissions. Required: "; Lit permissionName]).
Proof.
  intros Hreq Hroles.
  assert (E : rbac_permissions user = Set_.new).
  { unfold rbac_permissions. rewrite Hroles. reflexivity. }
  split; [exact E |]. rewrite rbac_handover, Hreq, E.
  split; reflexivity.
Qed.

Lemma C6_witness :
  rbac_permissions Seed.patient = Set_.new
  /\ Set_.has (rbac_permissions Seed.patient) "record:read" = false
  /\ fst (rbac "record:read" (Seed.request (Some Seed.patient) "1") Seed.up)
     = next_error
         (ForbiddenError
            [Lit "Insufficient permissions. Required: "; Lit "record:read"]).
Proof.
  apply (C6_no_roles_no_permissions Seed.patient
           (Seed.request (Some Seed.patient) "1") "record:read" Seed.up);
    reflexivity.
Defined.

(** ** [rebacResource] *)

Section Journal.

Lemma issued_record_query (q : Prisma.query) (st : State) :
  issued (record (Issued q) st) = issued st ++ [q].
Proof. unfold issued, record. cbn [journal]. rewrite omap_app. reflexivity. Qed.

Lemma issued_record_log (l : Logger.entry) (st : State) :
  issued (record (Logged l) st) = issued st.
Proof.
  unfold issued, record. cbn [journal]. rewrite omap_app. cbn.
  apply app_nil_r.
Qed.

End Journal.

(** A positive integer passes the test of line 27; NaN, zero and the
    negative numbers do not. *)
Lemma id_accepted (n : Z) : 1 <= n -> Js.not (Fin n) || isNaN (Fin n) || lt (Fin n) 1 = false.
Proof.
  intros H. destruct n as [| p | p]; try lia. cbn.
  apply Z.ltb_ge. lia.
Qed.

Lemma id_refused (id : number) :
  id = NaN \/ id = NegInf \/ (exists z, id = Fin z /\ z <= 0) ->
  Js.not id || isNaN id || lt id 1 = true.
Proof.
  intros [-> | [-> | (z & -> & Hz)]]; try reflexivity.
  destruct z as [| p | p]; try reflexivity. lia.
Qed.

(** Unfolding a run: the monad's operations, the client's calls and the
    logger are opened, the [instanceof] tests of the [catch] clause are
    evaluated, and the journal is flattened. *)
Ltac eval_instanceof :=
  repeat match goal with
         | |- context [extends ?c ?d] =>
             let v := eval vm_compute in (extends c d) in
             change (extends c d) with v
         end.

Ltac open_run :=
  unfold strictEq, PrismaClient.patientRecord_findUnique_,
    PrismaClient.relationship_findUnique_, PrismaClient.call,
    logger.debug, logger.warn, logger.error, logger.write,
    try_catch, bind, ret, throw, record;
  cbn [tables outage journal].

Ltac close_run :=
  cbn; eval_instanceof; cbn;
  repeat (f_equal; []);
  unfold issued; cbn [journal];
  rewrite ?omap_app; cbn; rewrite <- ?app_assoc, ?app_nil_r;
  reflexivity.

Lemma rebac_catch_returns (error : thrown) (st : State) :
  exists st', rebac_catch error st = (inr (next_error error), st').
Proof.
  unfold rebac_catch.
  destruct (instanceof error Forbidden || instanceof error Unauthorized
            || instanceof error BadRequest || instanceof error NotFound);
    eexists; reflexivity.
Qed.

(** The run of [rebacResource], exit by exit: what it hands over and which
    queries it has added to the journal. *)
Lemma rebac_run (relationType : string) (req : AuthRequest.t) (st : State) :
  let r := rebacResource relationType req st in
  (fst r, issued (snd r)) =
  match AuthRequest.user req with
  | None => (next_error (UnauthorizedError [Lit "User not authenticated"]), issued st)
  | Some user =>
      let id := parseInt (Params.id (AuthRequest.params req)) in
      if Js.not id || isNaN id || lt id 1 then
        (next_error (BadRequestError [Lit "Invalid or missing record ID"]), issued st)
      else
        let q1 := Prisma.patientRecord_findUnique id in
        match outage st q1 with
        | Some m => (next_error (Other m), issued st ++ [q1])
        | None =>
            match PrismaClient.patientRecord_lookup id (tables st) with
            | None =>
                (next_error
                   (NotFoundError [Lit "Record with ID "; Num id; Lit " not found"]),
                 issued st ++ [q1])
            | Some record =>
                if PatientRecord.ownerId record =? User.id user then
                  (next, issued st ++ [q1])
                else
                  let q2 := Prisma.relationship_findUnique
                              (User.id user) (PatientRecord.ownerId record)
                              relationType in
                  match outage st q2 with
                  | Some m => (next_error (Other m), issued st ++ [q1; q2])
                  | None =>
                      match PrismaClient.relationship_lookup
                              (User.id user) (PatientRecord.ownerId record)
                              relationType (tables st) with
                      | Some _ => (next, issued st ++ [q1; q2])
                      | None =>
                          (next_error
                             (ForbiddenError
                                [Lit "No "; Lit relationType;
                                 Lit " relationship found with record owner"]),
                           issued st ++ [q1; q2])
                      end
                  end
            end
        end
  end.
Proof.
  cbv zeta.
  unfold rebacResource, settle, rebac_try.
  destruct (AuthRequest.user req) as [user |]; [| reflexivity].
  destruct (Js.not _ || isNaN _ || lt _ 1); [reflexivity |].
  set (id := parseInt _).
  unfold rebac_catch. open_run.
  destruct (outage st (Prisma.patientRecord_findUnique id)) as [m |];
    [close_run |].
  destruct (PrismaClient.patientRecord_lookup id (tables st)) as [rcd |];
    [| close_run].
  destruct (PatientRecord.ownerId rcd =? User.id user); [close_run |].
  cbn [tables outage journal].
  destruct (outage st (Prisma.relationship_findUnique _ _ _)) as [m |];
    [close_run |].
  destruct (PrismaClient.relationship_lookup _ _ _ _) as [edge |]; close_run.
Qed.

Lemma added_app (st st' : State) (qs : list Prisma.query) :
  issued st' = issued st ++ qs -> added st st' = qs.
Proof. intros E. unfold added. rewrite E. apply drop_app_length. Qed.

(** The tables and the reachability of the store after a run. *)
Lemma rebac_frame (relationType : string) (req : AuthRequest.t) (st : State) :
  tables (snd (rebacResource relationType req st)) = tables st
  /\ outage (snd (rebacResource relationType req st)) = outage st.
Proof.
  unfold rebacResource, settle, rebac_try.
  destruct (AuthRequest.user req) as [user |]; [| split; reflexivity].
  destruct (Js.not _ || isNaN _ || lt _ 1); [split; reflexivity |].
  unfold rebac_catch. open_run.
  destruct (outage st (Prisma.patientRecord_findUnique _)) as [m |];
    [split; reflexivity |].
  destruct (PrismaClient.patientRecord_lookup _ (tables st)) as [rcd |];
    [| cbn; eval_instanceof; split; reflexivity].
  destruct (PatientRecord.ownerId rcd =? User.id user); [split; reflexivity |].
  cbn [tables outage journal].
  destruct (outage st (Prisma.relationship_findUnique _ _ _)) as [m |];
    [split; reflexivity |].
  destruct (PrismaClient.relationship_lookup _ _ _ _) as [edge |];
    cbn; eval_instanceof; split; reflexivity.
Qed.

(** [rbac] writes at most one log line and touches nothing else. *)
Lemma rbac_frame (permissionName : string) (req : AuthRequest.t) (st : State) :
  tables (snd (rbac permissionName req st)) = tables st
  /\ outage (snd (rbac permissionName req st)) = outage st
  /\ issued (snd (rbac permissionName req st)) = issued st.
Proof.
  unfold rbac, settle, rbac_try.
  destruct (AuthRequest.user req) as [user |]; [| repeat split; reflexivity].
  unfold rbac_catch. open_run.
  destruct (Set_.has (rbac_permissions user) permissionName);
    cbn; eval_instanceof; cbn; repeat split; try reflexivity;
    unfold issued; cbn [journal]; rewrite omap_app; cbn; apply app_nil_r.
Qed.

(** ** The two lookups *)


Lemma patientRecord_lookup_present (X : PatientRecord.t) (db : Prisma.Db) :
  NoDup (record_ids db) ->
  X ∈ Prisma.patientRecord db ->
  PrismaClient.patientRecord_lookup (Fin (PatientRecord.id X)) db = Some X.
Proof.
  unfold record_ids, PrismaClient.patientRecord_lookup.
  induction (Prisma.patientRecord db) as [| r l IH]; intros Hnd Hin.
  - apply elem_of_nil in Hin. contradiction.
  - rewrite fmap_cons in Hnd. apply NoDup_cons in Hnd as [Hr Hnd].
    cbn [List.find]. apply elem_of_cons in Hin as [-> | Hin].
    + rewrite Z.eqb_refl. reflexivity.
    + destruct (PatientRecord.id r =? PatientRecord.id X) eqn:E.
      * apply Z.eqb_eq in E. exfalso. apply Hr. rewrite E.
        apply list_elem_of_fmap. exists X. split; [reflexivity | exact Hin].
      * apply IH; assumption.
Qed.

Lemma edge_matches_iff (s o : Z) (t : string) (r : Relationship.t) :
  PrismaClient.edge_matches s o t r = true <-> r = Relationship.mk s o t.
Proof.
  unfold PrismaClient.edge_matches. destruct r as [s' o' t']. cbn.
  rewrite !andb_true_iff, !Z.eqb_eq, bool_decide_eq_true. split.
  - intros [[-> ->] ->]. reflexivity.
  - intros [= -> -> ->]. repeat split.
Qed.

Lemma relationship_lookup_Some (s o : Z) (t : string) (db : Prisma.Db) :
  Relationship.mk s o t ∈ Prisma.relationship db ->
  PrismaClient.relationship_lookup s o t db = Some (Relationship.mk s o t).
Proof.
  unfold PrismaClient.relationship_lookup.
  induction (Prisma.relationship db) as [| r l IH]; intros Hin.
  - apply elem_of_nil in Hin. contradiction.
  - cbn [List.find]. destruct (PrismaClient.edge_matches s o t r) eqn:E.
    + apply edge_matches_iff in E. rewrite E. reflexivity.
    + apply elem_of_cons in Hin as [Hr | Hin]; [| apply IH, Hin].
      symmetry in Hr. apply edge_matches_iff in Hr. congruence.
Qed.

Lemma relationship_lookup_None (s o : Z) (t : string) (db : Prisma.Db) :
  Relationship.mk s o t ∉ Prisma.relationship db ->
  PrismaClient.relationship_lookup s o t db = None.
Proof.
  unfold PrismaClient.relationship_lookup.
  induction (Prisma.relationship db) as [| r l IH]; intros Hn; [reflexivity |].
  apply not_elem_of_cons in Hn as [Hne Hn].
  cbn [List.find]. destruct (PrismaClient.edge_matches s o t r) eqn:E.
  - apply edge_matches_iff in E. congruence.
  - apply IH, Hn.
Qed.

(** ** Decisions of [rebacResource] *)

(** C1. A user asking for a record they own is let through, whatever the
    relation type the middleware was built with: the only query of the run
    is the read of the record, so neither the rows of the relationship table
    (any [edges]) nor its availability take part in the outcome.  The record
    is a row of a store that answers the read and keeps its records under
    unique, positive primary keys, and the id of the request parses to its
    key. *)
Theorem C1_owner_is_let_through
    (relationType : string) (req : AuthRequest.t) (st : State)
    (S : User.t) (X : PatientRecord.t) (edges : list Relationship.t) :
  AuthRequest.user req = Some S ->
  NoDup (record_ids (tables st)) ->
  X ∈ Prisma.patientRecord (tables st) ->
  1 <= PatientRecord.id X ->
  parseInt (Params.id (AuthRequest.params req)) = Fin (PatientRecord.id X) ->
  outage st (Prisma.patientRecord_findUnique (Fin (PatientRecord.id X))) = None ->
  PatientRecord.ownerId X = User.id S ->
  fst (rebacResource relationType req (with_relationship edges st)) = next
  /\ added st (snd (rebacResource relationType req (with_relationship edges st)))
     = [Prisma.patientRecord_findUnique (Fin (PatientRecord.id X))].
Proof.
  intros Huser Hkey HX Hpos Hid Hup Hown.
  pose proof (rebac_run relationType req (with_relationship edges st)) as R.
  cbv zeta in R. rewrite Huser, Hid, (id_accepted _ Hpos) in R.
  cbn [with_relationship outage tables] in R. rewrite Hup in R.
  replace (PrismaClient.patientRecord_lookup (Fin (PatientRecord.id X)) _)
    with (Some X) in R.
  2:{ symmetry. rewrite <- (patientRecord_lookup_present X (tables st) Hkey HX).
      reflexivity. }
  rewrite Hown, Z.eqb_refl in R. injection R as R1 R2.
  split; [exact R1 |]. apply added_app. exact R2.
Qed.

Lemma C1_witness :
  fst (rebacResource "manages" (Seed.request (Some Seed.patient) "1")
                     (with_relationship [] Seed.up)) = next
  /\ added Seed.up
       (snd (rebacResource "manages" (Seed.request (Some Seed.patient) "1")
                           (with_relationship [] Seed.up)))
     = [Prisma.patientRecord_findUnique (Fin 1)].
Proof.
  apply (C1_owner_is_let_through "manages" (Seed.request (Some Seed.patient) "1")
           Seed.up Seed.patient Seed.rec1 []).
  - reflexivity.
  - compute_done.
  - compute_done.
  - compute_done.
  - reflexivity.
  - reflexivity.
  - reflexivity.
Defined.




(** C3. For a user [A] and a record owned by another user [B], with both
    reads answered, the middleware lets the request through exactly when the
    relationship table holds the row ([A.id], [B.id], [relationType]), and
    answers with a [ForbiddenError] when it does not, whatever other rows
    between [A] and [B] it holds. *)
Theorem C3_edge_of_that_type_decides
    (relationType : string) (req : AuthRequest.t) (st : State)
    (A B : User.t) (X : PatientRecord.t) :
  AuthRequest.user req = Some A ->
  User.id A <> User.id B ->
  NoDup (record_ids (tables st)) ->
  X ∈ Prisma.patientRecord (tables st) ->
  PatientRecord.ownerId X = User.id B ->
  1 <= PatientRecord.id X ->
  parseInt (Params.id (AuthRequest.params req)) = Fin (PatientRecord.id X) ->
  outage st (Prisma.patientRecord_findUnique (Fin (PatientRecord.id X))) = None ->
  outage st (Prisma.relationship_findUnique (User.id A) (User.id B) relationType)
    = None ->
  (fst (rebacResource relationType req st) = next
   <-> Relationship.mk (User.id A) (User.id B) relationType
         ∈ Prisma.relationship (tables st))
  /\ (fst (rebacResource relationType req st)
        = next_error
            (ForbiddenError
               [Lit "No "; Lit relationType;
                Lit " relationship found with record owner"])
      <-> Relationship.mk (User.id A) (User.id B) relationType
            ∉ Prisma.relationship (tables st)).
Proof.
  intros Huser Hne Hkey HX Hown Hpos Hid Hup1 Hup2.
  pose proof (rebac_run relationType req st) as R. cbv zeta in R.
  rewrite Huser, Hid, (id_accepted _ Hpos), Hup1,
    (patientRecord_lookup_present X _ Hkey HX), Hown in R.
  replace (User.id B =? User.id A) with false in R
    by (symmetry; apply Z.eqb_neq; congruence).
  rewrite Hup2 in R.
  destruct (decide (Relationship.mk (User.id A) (User.id B) relationType
                      ∈ Prisma.relationship (tables st))) as [Hin | Hout].
  - rewrite (relationship_lookup_Some _ _ _ _ Hin) in R. injection R as R1 _.
    rewrite R1. split; split; try tauto; try discriminate.
  - rewrite (relationship_lookup_None _ _ _ _ Hout) in R. injection R as R1 _.
    rewrite R1. split; split; try tauto; try discriminate.
Qed.

Lemma C3_witness :
  (fst (rebacResource "manages" (Seed.request (Some Seed.docUser) "1") Seed.up) = next
   <-> Relationship.mk 1 3 "manages" ∈ Prisma.relationship (tables Seed.up))
  /\ (fst (rebacResource "manages" (Seed.request (Some Seed.docUser) "1") Seed.up)
        = next_error
            (ForbiddenError
               [Lit "No "; Lit "manages"; Lit " relationship found with record owner"])
      <-> Relationship.mk 1 3 "manages" ∉ Prisma.relationship (tables Seed.up)).
Proof.
  apply (C3_edge_of_that_type_decides "manages"
           (Seed.request (Some Seed.docUser) "1") Seed.up
           Seed.docUser Seed.patient Seed.rec1).
  - reflexivity.
  - compute_done.
  - compute_done.
  - compute_done.
  - reflexivity.
  - compute_done.
  - reflexivity.
  - reflexivity.
  - reflexivity.
Defined.

(** ** Store failures *)

(** A query the run of [rebacResource] has issued and the store rejected is
    what the run hands over. *)
Lemma rebac_rejected_query
    (relationType : string) (req : AuthRequest.t) (st : State)
    (q : Prisma.query) (m : string) :
  outage st q = Some m ->
  q ∈ added st (snd (rebacResource relationType req st)) ->
  fst (rebacResource relationType req st) = next_error (Other m).
Proof.
  intros Hq Hin.
  pose proof (rebac_run relationType req st) as R. cbv zeta in R.
  assert (Hnil : forall st', issued st' = issued st -> q ∉ added st st').
  { intros st' E. rewrite (added_app st st' []); [apply not_elem_of_nil |].
    rewrite E. symmetry. apply app_nil_r. }
  destruct (AuthRequest.user req) as [user |].
  2:{ injection R as _ R2. exfalso. exact (Hnil _ R2 Hin). }
  destruct (Js.not _ || isNaN _ || lt _ 1).
  { injection R as _ R2. exfalso. exact (Hnil _ R2 Hin). }
  set (q1 := Prisma.patientRecord_findUnique _) in R.
  destruct (outage st q1) as [m1 |] eqn:E1.
  { injection R as R1 R2. rewrite (added_app _ _ _ R2) in Hin.
    apply list_elem_of_singleton in Hin. subst q. congruence. }
  destruct (PrismaClient.patientRecord_lookup _ (tables st)) as [rcd |].
  2:{ injection R as _ R2. rewrite (added_app _ _ _ R2) in Hin.
      apply list_elem_of_singleton in Hin. subst q. congruence. }
  destruct (PatientRecord.ownerId rcd =? User.id user).
  { injection R as _ R2. rewrite (added_app _ _ _ R2) in Hin.
    apply list_elem_of_singleton in Hin. subst q. congruence. }
  set (q2 := Prisma.relationship_findUnique _ _ _) in R.
  assert (Hq12 : q ∈ [q1; q2] -> outage st q2 = Some m).
  { intros H. apply elem_of_cons in H as [-> | H]; [congruence |].
    apply list_elem_of_singleton in H. subst q. exact Hq. }
  destruct (outage st q2) as [m2 |] eqn:E2.
  { injection R as R1 R2. rewrite (added_app _ _ _ R2) in Hin.
    specialize (Hq12 Hin). congruence. }
  destruct (PrismaClient.relationship_lookup _ _ _ _);
    injection R as _ R2; rewrite (added_app _ _ _ R2) in Hin;
    specialize (Hq12 Hin); discriminate.
Qed.

(** [getRecordById], exit by exit. *)
Lemma getRecordById_run (id : number) (st : State) :
  fst (getRecordById id st) =
  match outage st (Prisma.patientRecord_findUnique id) with
  | Some _ => inl (DatabaseError [Lit "Failed to fetch record"])
  | None =>
      match PrismaClient.patientRecord_lookup id (tables st) with
      | Some record => inr record
      | None =>
          inl (NotFoundError [Lit "Record with ID "; Num id; Lit " not found"])
      end
  end.
Proof.
  unfold getRecordById. open_run.
  destruct (outage st (Prisma.patientRecord_findUnique id)) as [m |];
    [reflexivity |].
  destruct (PrismaClient.patientRecord_lookup id (tables st)) as [rcd |];
    cbn; eval_instanceof; reflexivity.
Qed.

(** C7. A read the store rejects during a run of [rebacResource] ends the
    run with the store's own error handed to [next]: the request is not let
    through, the error is neither a [ForbiddenError] nor a [NotFoundError],
    and the error handler answers it with status 500.  In [getRecordById] a
    rejected read ends in a [DatabaseError], again neither of the two and
    answered with 500. *)
Theorem C7_store_failure_is_surfaced :
  (forall (relationType : string) (req : AuthRequest.t) (st : State)
          (q : Prisma.query) (m : string),
      outage st q = Some m ->
      q ∈ added st (snd (rebacResource relationType req st)) ->
      fst (rebacResource relationType req st) = next_error (Other m)
      /\ fst (rebacResource relationType req st) <> next
      /\ instanceof (Other m) Forbidden = false
      /\ instanceof (Other m) NotFound = false
      /\ errorHandler_status (Other m) = 500)
  /\ (forall (id : number) (st : State) (m : string),
         outage st (Prisma.patientRecord_findUnique id) = Some m ->
         fst (getRecordById id st) = inl (DatabaseError [Lit "Failed to fetch record"])
         /\ instanceof (DatabaseError [Lit "Failed to fetch record"]) Forbidden = false
         /\ instanceof (DatabaseError [Lit "Failed to fetch record"]) NotFound = false
         /\ errorHandler_status (DatabaseError [Lit "Failed to fetch record"]) = 500).
Proof.
  split.
  - intros relationType req st q m Hq Hin.
    rewrite (rebac_rejected_query relationType req st q m Hq Hin).
    repeat split; try reflexivity. discriminate.
  - intros id st m Hq. rewrite getRecordById_run, Hq.
    repeat split; reflexivity.
Qed.

Lemma C7_witness :
  (fst (rebacResource "assigned_to" (Seed.request (Some Seed.docUser) "1") Seed.down)
     = next_error (Other "Can't reach database server")
   /\ fst (rebacResource "assigned_to" (Seed.request (Some Seed.docUser) "1") Seed.down)
      <> next
   /\ instanceof (Other "Can't reach database server") Forbidden = false
   /\ instanceof (Other "Can't reach database server") NotFound = false
   /\ errorHandler_status (Other "Can't reach database server") = 500)
  /\ (fst (getRecordById (Fin 1) Seed.down)
        = inl (DatabaseError [Lit "Failed to fetch record"])
      /\ instanceof (DatabaseError [Lit "Failed to fetch record"]) Forbidden = false
      /\ instanceof (DatabaseError [Lit "Failed to fetch record"]) NotFound = false
      /\ errorHandler_status (DatabaseError [Lit "Failed to fetch record"]) = 500).
Proof.
  split.
  - apply (proj1 C7_store_failure_is_surfaced "assigned_to"
             (Seed.request (Some Seed.docUser) "1") Seed.down
             (Prisma.patientRecord_findUnique (Fin 1))
             "Can't reach database server").
    + reflexivity.
    + vm_compute. apply list_elem_of_here.
  - apply (proj2 C7_store_failure_is_surfaced (Fin 1) Seed.down
             "Can't reach database server").
    reflexivity.
Defined.

(** ** Reads only *)

(** The administrative write, for contrast: on a reachable store that does
    not hold the triple yet, [create] adds the row. *)
Lemma relationship_create_writes (s o : Z) (t : string) (st : State) :
  outage st (Prisma.relationship_create s o t) = None ->
  Relationship.mk s o t ∉ Prisma.relationship (tables st) ->
  Prisma.relationship (tables (snd (PrismaClient.relationship_create_ s o t st)))
  = Prisma.relationship (tables st) ++ [Relationship.mk s o t].
Proof.
  intros Hup Hnew. unfold PrismaClient.relationship_create_. open_run.
  rewrite Hup, (relationship_lookup_None _ _ _ _ Hnew). reflexivity.
Qed.

Lemma rebac_reads_only (relationType : string) (req : AuthRequest.t) (st : State) :
  Forall (fun q => is_read q = true)
         (added st (snd (rebacResource relationType req st))).
Proof.
  pose proof (rebac_run relationType req st) as R. cbv zeta in R.
  assert (Hnil : forall st', issued st' = issued st ->
                             Forall (fun q => is_read q = true) (added st st')).
  { intros st' E. rewrite (added_app st st' []); [constructor |].
    rewrite E. symmetry. apply app_nil_r. }
  destruct (AuthRequest.user req) as [user |];
    [| injection R as _ R2; apply Hnil, R2].
  destruct (Js.not _ || isNaN _ || lt _ 1);
    [injection R as _ R2; apply Hnil, R2 |].
  destruct (outage st (Prisma.patientRecord_findUnique _));
    [injection R as _ R2; rewrite (added_app _ _ _ R2); repeat constructor |].
  destruct (PrismaClient.patientRecord_lookup _ (tables st)) as [rcd |];
    [| injection R as _ R2; rewrite (added_app _ _ _ R2); repeat constructor].
  destruct (PatientRecord.ownerId rcd =? User.id _);
    [injection R as _ R2; rewrite (added_app _ _ _ R2); repeat constructor |].
  destruct (outage st (Prisma.relationship_findUnique _ _ _));
    [injection R as _ R2; rewrite (added_app _ _ _ R2); repeat constructor |].
  destruct (PrismaClient.relationship_lookup _ _ _ _);
    injection R as _ R2; rewrite (added_app _ _ _ R2); repeat constructor.
Qed.

(** C8. A run of [rbac] or of [rebacResource] leaves the tables as they
    were: [rbac] issues no query at all (the roles and permissions reach it
    inside [req.user], which it only reads), and every query [rebacResource]
    issues is a [findUnique]. *)
Theorem C8_decisions_leave_the_store_unchanged
    (permissionName relationType : string) (req : AuthRequest.t) (st : State) :
  (tables (snd (rbac permissionName req st)) = tables st
   /\ added st (snd (rbac permissionName req st)) = [])
  /\ (tables (snd (rebacResource relationType req st)) = tables st
      /\ Forall (fun q => is_read q = true)
                (added st (snd (rebacResource relationType req st)))).
Proof.
  split.
  - destruct (rbac_frame permissionName req st) as (Ht & _ & Hi).
    split; [exact Ht |]. apply added_app. rewrite Hi. symmetry. apply app_nil_r.
  - split; [apply rebac_frame | apply rebac_reads_only].
Qed.

(** ** Requests refused before any query *)

Lemma rebac_unauthenticated (relationType : string) (req : AuthRequest.t) (st : State) :
  AuthRequest.user req = None ->
  rebacResource relationType req st
  = (next_error (UnauthorizedError [Lit "User not authenticated"]), st).
Proof.
  intros H. unfold rebacResource, settle, rebac_try. rewrite H. reflexivity.
Qed.

Lemma rbac_unauthenticated (permissionName : string) (req : AuthRequest.t) (st : State) :
  AuthRequest.user req = None ->
  rbac permissionName req st
  = (next_error (UnauthorizedError [Lit "User not authenticated"]), st).
Proof.
  intros H. unfold rbac, settle, rbac_try. rewrite H. reflexivity.
Qed.

(** C9, as stated, fails on a request that carries no user: with the id "0",
    which parses to zero, [rebacResource] answers with an
    [UnauthorizedError] and not with a [BadRequestError], the test of
    [req.user] (lines 21 to 24) coming before the test of the id. *)
Lemma C9_counterexample :
  parseInt (Params.id (AuthRequest.params (Seed.request None "0"))) = Fin 0
  /\ fst (rebacResource "assigned_to" (Seed.request None "0") Seed.up)
     = next_error (UnauthorizedError [Lit "User not authenticated"])
  /\ fst (rebacResource "assigned_to" (Seed.request None "0") Seed.up)
     <> next_error (BadRequestError [Lit "Invalid or missing record ID"])
  /\ (forall e, fst (rebacResource "assigned_to" (Seed.request None "0") Seed.up)
                = next_error e -> instanceof e BadRequest = false).
Proof.
  rewrite rebac_unauthenticated by reflexivity. cbn [fst].
  split; [reflexivity |]. split; [reflexivity |]. split; [discriminate |].
  intros e [= <-]. reflexivity.
Qed.

(** C9, amended. When the id of the request parses to NaN, to zero or to a
    negative number, [rebacResource] ends in the state it started in, so
    without a query and without a log line, and hands over a
    [BadRequestError] when the request carries a user, and the
    [UnauthorizedError] of the earlier test when it does not; in both cases
    the error is neither a [NotFoundError] nor a [ForbiddenError]. *)
Theorem C9_invalid_id_is_refused_before_any_query
    (relationType : string) (req : AuthRequest.t) (st : State) :
  (parseInt (Params.id (AuthRequest.params req)) = NaN
   \/ parseInt (Params.id (AuthRequest.params req)) = NegInf
   \/ exists z, parseInt (Params.id (AuthRequest.params req)) = Fin z /\ z <= 0) ->
  let refusal :=
    match AuthRequest.user req with
    | Some _ => BadRequestError [Lit "Invalid or missing record ID"]
    | None => UnauthorizedError [Lit "User not authenticated"]
    end in
  rebacResource relationType req st = (next_error refusal, st)
  /\ instanceof refusal NotFound = false
  /\ instanceof refusal Forbidden = false.
Proof.
  intros Hid refusal. subst refusal.
  destruct (AuthRequest.user req) as [user |] eqn:Huser.
  - split; [| split; reflexivity].
    unfold rebacResource, settle, rebac_try. rewrite Huser, (id_refused _ Hid).
    reflexivity.
  - split; [| split; reflexivity]. apply rebac_unauthenticated, Huser.
Qed.

Lemma C9_witness :
  rebacResource "assigned_to" (Seed.request (Some Seed.docUser) "-3") Seed.up
  = (next_error (BadRequestError [Lit "Invalid or missing record ID"]), Seed.up)
  /\ instanceof (BadRequestError [Lit "Invalid or missing record ID"]) NotFound = false
  /\ instanceof (BadRequestError [Lit "Invalid or missing record ID"]) Forbidden = false.
Proof.
  apply (C9_invalid_id_is_refused_before_any_query "assigned_to"
           (Seed.request (Some Seed.docUser) "-3") Seed.up).
  right. right. exists (-3). split; [reflexivity | lia].
Defined.

(** C10. A request that carries no user is answered by [rbac] and by
    [rebacResource] with an [UnauthorizedError], which is no
    [ForbiddenError] and has status 401; both end in the state they started
    in: no permission set was built, no query issued, no line logged. *)
Theorem C10_no_user_is_unauthorized
    (permissionName relationType : string) (req : AuthRequest.t) (st : State) :
  AuthRequest.user req = None ->
  rbac permissionName req st
    = (next_error (UnauthorizedError [Lit "User not authenticated"]), st)
  /\ rebacResource relationType req st
     = (next_error (UnauthorizedError [Lit "User not authenticated"]), st)
  /\ instanceof (UnauthorizedError [Lit "User not authenticated"]) Forbidden = false
  /\ errorHandler_status (UnauthorizedError [Lit "User not authenticated"]) = 401.
Proof.
  intros H. split; [apply rbac_unauthenticated, H |].
  split; [apply rebac_unauthenticated, H |]. split; reflexivity.
Qed.

Lemma C10_witness :
  rbac "record:read" (Seed.request None "1") Seed.up
    = (next_error (UnauthorizedError [Lit "User not authenticated"]), Seed.up)
  /\ rebacResource "assigned_to" (Seed.request None "1") Seed.up
     = (next_error (UnauthorizedError [Lit "User not authenticated"]), Seed.up)
  /\ instanceof (UnauthorizedError [Lit "User not authenticated"]) Forbidden = false
  /\ errorHandler_status (UnauthorizedError [Lit "User not authenticated"]) = 401.
Proof.
  apply (C10_no_user_is_unauthorized "record:read" "assigned_to"
           (Seed.request None "1") Seed.up).
  reflexivity.
Defined.

(** ** The scenarios of the seed *)

Example doctor_may_read :
  fst (rbac "record:read" (Seed.request (Some Seed.docUser) "1") Seed.up) = next.
Proof. reflexivity. Qed.

Example patient_may_not_read :
  fst (rbac "record:read" (Seed.request (Some Seed.patient) "1") Seed.up)
  = next_error (ForbiddenError [Lit "Insufficient permissions. Required: ";
                                Lit "record:read"]).
Proof. reflexivity. Qed.

Example no_prefix_and_no_wildcard :
  fst (rbac "record:" (Seed.request (Some Seed.docUser) "1") Seed.up) <> next
  /\ fst (rbac "*" (Seed.request (Some Seed.docUser) "1") Seed.up) <> next
  /\ fst (rbac "record:read " (Seed.request (Some Seed.docUser) "1") Seed.up) <> next.
Proof. repeat split; discriminate. Qed.

Example permissions_listed_once :
  Set_.toArray
    (rbac_permissions (with_role 1 (UserRole.mk Seed.nurse) Seed.docUser))
  = ["record:read"; "record:write"].
Proof. reflexivity. Qed.

Example doctor_assigned_to :
  fst (rebacResource "assigned_to" (Seed.request (Some Seed.docUser) "1") Seed.up)
  = next.
Proof. reflexivity. Qed.

Example doctor_does_not_manage :
  fst (rebacResource "manages" (Seed.request (Some Seed.docUser) "1") Seed.up)
  = next_error (ForbiddenError [Lit "No "; Lit "manages";
                                Lit " relationship found with record owner"]).
Proof. reflexivity. Qed.

Example patient_owns :
  fst (rebacResource "assigned_to" (Seed.request (Some Seed.patient) "1") Seed.up)
  = next.
Proof. reflexivity. Qed.

Example record_999_is_missing :
  fst (rebacResource "assigned_to" (Seed.request (Some Seed.docUser) "999") Seed.up)
  = next_error (NotFoundError [Lit "Record with ID "; Num (Fin 999);
                               Lit " not found"]).
Proof. reflexivity. Qed.

(** With the relationship table unreadable the doctor is neither let through
    nor denied, and the owner, whose check needs no edge, is let through. *)
Example edge_read_fails :
  fst (rebacResource "assigned_to" (Seed.request (Some Seed.docUser) "1")
                     Seed.edges_down)
  = next_error (Other "Can't reach database server")
  /\ fst (rebacResource "assigned_to" (Seed.request (Some Seed.patient) "1")
                        Seed.edges_down)
     = next.
Proof. split; reflexivity. Qed.

(** A second [create] of the seeded triple is rejected and adds no row. *)
Example create_twice :
  PrismaClient.relationship_create_ 1 3 "assigned_to" Seed.up
  = (inl (Other "Unique constraint failed on the fields: (`subjectId`,`objectId`,`type`)"),
     record (Issued (Prisma.relationship_create 1 3 "assigned_to")) Seed.up).
Proof. reflexivity. Qed.

(** ** [parseInt] on examples *)

Example parseInt_12 : Js.parseInt "12" = Js.Fin 12.
Proof. reflexivity. Qed.

Example parseInt_prefix : Js.parseInt "  +42abc" = Js.Fin 42.
Proof. reflexivity. Qed.

Example parseInt_neg : Js.parseInt "-7.5" = Js.Fin (-7).
Proof. reflexivity. Qed.

Example parseInt_nan : Js.parseInt "abc" = Js.NaN.
Proof. reflexivity. Qed.

Example parseInt_empty : Js.parseInt "" = Js.NaN.
Proof. reflexivity. Qed.

Example parseInt_2p53 : Js.parseInt "9007199254740993" = Js.Fin 9007199254740992.
Proof. reflexivity. Qed.

Example parseInt_2p53_up : Js.parseInt "9007199254740995" = Js.Fin 9007199254740996.
Proof. reflexivity. Qed.

Example roundToDouble_max :
  Js.roundToDouble (2 ^ 1024 - 2 ^ 971) = Js.Fin (2 ^ 1024 - 2 ^ 971)
  /\ Js.roundToDouble (2 ^ 1024 - 2 ^ 970 - 1) = Js.Fin (2 ^ 1024 - 2 ^ 971)
  /\ Js.roundToDouble (2 ^ 1024 - 2 ^ 970) = Js.PosInf
  /\ Js.roundToDouble (- 2 ^ 1024) = Js.NegInf.
Proof. vm_compute. repeat split; reflexivity. Qed.

(** A run of digits too long for a double parses to [+Infinity], which
    passes the test of line 27: the record read is issued with it. *)
Example parseInt_overflow :
  parseInt (String "1" (string_of_list_ascii (repeat "0"%char 309))) = PosInf
  /\ Js.not PosInf || isNaN PosInf || lt PosInf 1 = false.
Proof. vm_compute. split; reflexivity. Qed.

(** * Further properties *)

(** ** What the look-ups return *)

Lemma patientRecord_lookup_found (id : number) (db : Prisma.Db) (X : PatientRecord.t) :
  PrismaClient.patientRecord_lookup id db = Some X ->
  X ∈ Prisma.patientRecord db /\ id = Fin (PatientRecord.id X).
Proof.
  unfold PrismaClient.patientRecord_lookup. destruct id as [| z | |]; try discriminate.
  induction (Prisma.patientRecord db) as [| r l IH]; [discriminate |].
  cbn [List.find]. destruct (PatientRecord.id r =? z) eqn:E.
  - intros [= ->]. apply Z.eqb_eq in E. subst z.
    split; [apply list_elem_of_here | reflexivity].
  - intros H. destruct (IH H) as [Hin Hid].
    split; [apply list_elem_of_further, Hin | exact Hid].
Qed.

Lemma patientRecord_lookup_missing (id : number) (db : Prisma.Db) :
  PrismaClient.patientRecord_lookup id db = None ->
  forall X, X ∈ Prisma.patientRecord db -> id <> Fin (PatientRecord.id X).
Proof.
  unfold PrismaClient.patientRecord_lookup. intros H X HX ->.
  induction (Prisma.patientRecord db) as [| r l IH].
  - apply elem_of_nil in HX. contradiction.
  - cbn [List.find] in H.
    destruct (PatientRecord.id r =? PatientRecord.id X) eqn:E; [discriminate |].
    apply elem_of_cons in HX as [-> | HX].
    + rewrite Z.eqb_refl in E. discriminate.
    + apply IH; assumption.
Qed.

Lemma relationship_lookup_found (s o : Z) (t : string) (db : Prisma.Db)
    (r : Relationship.t) :
  PrismaClient.relationship_lookup s o t db = Some r ->
  Relationship.mk s o t ∈ Prisma.relationship db.
Proof.
  unfold PrismaClient.relationship_lookup.
  induction (Prisma.relationship db) as [| r' l IH]; [discriminate |].
  cbn [List.find]. destruct (PrismaClient.edge_matches s o t r') eqn:E.
  - intros _. apply edge_matches_iff in E. subst r'. apply list_elem_of_here.
  - intros H. apply list_elem_of_further, IH, H.
Qed.

Lemma id_passes (id : number) :
  Js.not id || isNaN id || lt id 1 = false ->
  id = PosInf \/ exists n, id = Fin n /\ 1 <= n.
Proof.
  destruct id as [| z | |]; cbn; try discriminate; [| tauto].
  intros H. right. exists z. split; [reflexivity |].
  destruct z as [| p | p]; try discriminate; lia.
Qed.

(** ** Who [rebacResource] lets through *)

(** X1. [rebacResource] calls [next()] only for a request that carries a
    user and whose id parses to the positive key of a stored record which
    that user owns or to whose owner a row of the required type links the
    user. *)
Theorem rebac_lets_through_only_owner_or_related
    (relationType : string) (req : AuthRequest.t) (st : State) :
  fst (rebacResource relationType req st) = next ->
  exists (user : User.t) (X : PatientRecord.t),
    AuthRequest.user req = Some user
    /\ X ∈ Prisma.patientRecord (tables st)
    /\ 1 <= PatientRecord.id X
    /\ parseInt (Params.id (AuthRequest.params req)) = Fin (PatientRecord.id X)
    /\ (PatientRecord.ownerId X = User.id user
        \/ Relationship.mk (User.id user) (PatientRecord.ownerId X) relationType
             ∈ Prisma.relationship (tables st)).
Proof.
  intros Hnext.
  pose proof (rebac_run relationType req st) as R. cbv zeta in R.
  rewrite Hnext in R.
  destruct (AuthRequest.user req) as [user |]; [| discriminate].
  destruct (Js.not _ || isNaN _ || lt _ 1) eqn:Hid; [discriminate |].
  destruct (outage st (Prisma.patientRecord_findUnique _)); [discriminate |].
  destruct (PrismaClient.patientRecord_lookup _ (tables st)) as [X |] eqn:HX;
    [| discriminate].
  apply patientRecord_lookup_found in HX as [HX Hparse].
  assert (Hpos : 1 <= PatientRecord.id X).
  { apply id_passes in Hid as [Hinf | (n & Hn & Hpos)]; [congruence |].
    rewrite Hparse in Hn. injection Hn as <-. exact Hpos. }
  exists user, X. repeat (split; [first [reflexivity | assumption] |]).
  destruct (PatientRecord.ownerId X =? User.id user) eqn:Hown.
  { left. apply Z.eqb_eq, Hown. }
  destruct (outage st (Prisma.relationship_findUnique _ _ _)); [discriminate |].
  destruct (PrismaClient.relationship_lookup _ _ _ _) as [edge |] eqn:He;
    [| discriminate].
  right. eapply relationship_lookup_found, He.
Qed.

Lemma rebac_lets_through_only_owner_or_related_witness :
  exists (user : User.t) (X : PatientRecord.t),
    AuthRequest.user (Seed.request (Some Seed.docUser) "1") = Some user
    /\ X ∈ Prisma.patientRecord (tables Seed.up)
    /\ 1 <= PatientRecord.id X
    /\ parseInt (Params.id (AuthRequest.params (Seed.request (Some Seed.docUser) "1")))
       = Fin (PatientRecord.id X)
    /\ (PatientRecord.ownerId X = User.id user
        \/ Relationship.mk (User.id user) (PatientRecord.ownerId X) "assigned_to"
             ∈ Prisma.relationship (tables Seed.up)).
Proof.
  apply (rebac_lets_through_only_owner_or_related "assigned_to"
           (Seed.request (Some Seed.docUser) "1") Seed.up).
  reflexivity.
Defined.

(** X2. A run of [rebacResource] issues no query, or the read of the record
    under the parsed id alone, or that read followed by one read of the
    relationship table; the latter asks for the row from the user of the
    request to the owner of the record found, of the required type, and is
    only issued when that owner is not the user. *)
Theorem rebac_issues_at_most_two_reads
    (relationType : string) (req : AuthRequest.t) (st : State) :
  let id := parseInt (Params.id (AuthRequest.params req)) in
  let qs := added st (snd (rebacResource relationType req st)) in
  qs = []
  \/ qs = [Prisma.patientRecord_findUnique id]
  \/ exists (user : User.t) (X : PatientRecord.t),
       AuthRequest.user req = Some user
       /\ PrismaClient.patientRecord_lookup id (tables st) = Some X
       /\ PatientRecord.ownerId X <> User.id user
       /\ qs = [Prisma.patientRecord_findUnique id;
                Prisma.relationship_findUnique
                  (User.id user) (PatientRecord.ownerId X) relationType].
Proof.
  cbv zeta.
  pose proof (rebac_run relationType req st) as R. cbv zeta in R.
  assert (Hnil : forall st', issued st' = issued st -> added st st' = []).
  { intros st' E. apply added_app. rewrite E. symmetry. apply app_nil_r. }
  destruct (AuthRequest.user req) as [user |];
    [| injection R as _ R2; left; apply Hnil, R2].
  destruct (Js.not _ || isNaN _ || lt _ 1);
    [injection R as _ R2; left; apply Hnil, R2 |].
  destruct (outage st (Prisma.patientRecord_findUnique _));
    [injection R as _ R2; right; left; apply added_app, R2 |].
  destruct (PrismaClient.patientRecord_lookup _ (tables st)) as [X |] eqn:HX;
    [| injection R as _ R2; right; left; apply added_app, R2].
  destruct (PatientRecord.ownerId X =? User.id user) eqn:Hown;
    [injection R as _ R2; right; left; apply added_app, R2 |].
  apply Z.eqb_neq in Hown.
  right. right. exists user, X.
  repeat (split; [first [reflexivity | assumption] |]).
  destruct (outage st (Prisma.relationship_findUnique _ _ _));
    [injection R as _ R2; apply added_app, R2 |].
  destruct (PrismaClient.relationship_lookup _ _ _ _);
    injection R as _ R2; apply added_app, R2.
Qed.

(** X3. What [rebacResource] hands over is [next()], one of its four
    errors ([UnauthorizedError], [BadRequestError], [NotFoundError],
    [ForbiddenError]), or the error of a query of this run that the store
    rejected: nothing else reaches the error handler from it. *)
Theorem rebac_handover_is_classified
    (relationType : string) (req : AuthRequest.t) (st : State) :
  let h := fst (rebacResource relationType req st) in
  h = next
  \/ h = next_error (UnauthorizedError [Lit "User not authenticated"])
  \/ h = next_error (BadRequestError [Lit "Invalid or missing record ID"])
  \/ h = next_error
           (NotFoundError
              [Lit "Record with ID ";
               Num (parseInt (Params.id (AuthRequest.params req)));
               Lit " not found"])
  \/ h = next_error
           (ForbiddenError
              [Lit "No "; Lit relationType;
               Lit " relationship found with record owner"])
  \/ exists (q : Prisma.query) (m : string),
       q ∈ added st (snd (rebacResource relationType req st))
       /\ outage st q = Some m
       /\ h = next_error (Other m).
Proof.
  cbv zeta.
  pose proof (rebac_run relationType req st) as R. cbv zeta in R.
  destruct (AuthRequest.user req) as [user |];
    [| injection R as R1 _; tauto].
  destruct (Js.not _ || isNaN _ || lt _ 1); [injection R as R1 _; tauto |].
  destruct (outage st (Prisma.patientRecord_findUnique _)) as [m |] eqn:E1.
  { injection R as R1 R2. do 5 right. eexists _, m.
    rewrite (added_app _ _ _ R2). split; [apply list_elem_of_here |].
    split; [exact E1 | exact R1]. }
  destruct (PrismaClient.patientRecord_lookup _ (tables st)) as [X |];
    [| injection R as R1 _; tauto].
  destruct (PatientRecord.ownerId X =? User.id user);
    [injection R as R1 _; tauto |].
  destruct (outage st (Prisma.relationship_findUnique _ _ _)) as [m |] eqn:E2.
  { injection R as R1 R2. do 5 right. eexists _, m.
    rewrite (added_app _ _ _ R2).
    split; [apply list_elem_of_further, list_elem_of_here |].
    split; [exact E2 | exact R1]. }
  destruct (PrismaClient.relationship_lookup _ _ _ _);
    injection R as R1 _; tauto.
Qed.

(** ** What [rbac] depends on *)

(** X4. The decision of [rbac] is a function of the required name and of
    the set of permission names of the user's roles alone: two users whose
    roles grant the same names are answered alike, whatever their ids, the
    order and number of their roles, the id in the request and the state of
    the store. *)
Theorem rbac_depends_on_the_granted_names_only
    (permissionName : string) (user1 user2 : User.t) (params1 params2 : Params.t)
    (st1 st2 : State) :
  ResolvePermissions_spec user1 = ResolvePermissions_spec user2 ->
  fst (rbac permissionName (AuthRequest.mk (Some user1) params1) st1)
  = fst (rbac permissionName (AuthRequest.mk (Some user2) params2) st2).
Proof.
  intros Hset. rewrite !rbac_handover. cbn [AuthRequest.user].
  assert (E : Set_.has (rbac_permissions user1) permissionName
              = Set_.has (rbac_permissions user2) permissionName).
  { unfold Set_.has. apply bool_decide_ext.
    rewrite !rbac_permissions_spec, Hset. reflexivity. }
  rewrite E. reflexivity.
Qed.

Lemma rbac_depends_on_the_granted_names_only_witness :
  fst (rbac "record:write"
            (AuthRequest.mk (Some Seed.docUser) (Params.mk "1")) Seed.up)
  = fst (rbac "record:write"
              (AuthRequest.mk
                 (Some (User.mk 7 "admin@example.com" None
                                [UserRole.mk Seed.nurse; UserRole.mk Seed.admin]))
                 (Params.mk "abc"))
              Seed.down).
Proof.
  apply (rbac_depends_on_the_granted_names_only "record:write" Seed.docUser
           (User.mk 7 "admin@example.com" None
                    [UserRole.mk Seed.nurse; UserRole.mk Seed.admin])
           (Params.mk "1") (Params.mk "abc") Seed.up Seed.down).
  compute_done.
Defined.

Lemma add_known_names (names : list string) : forall (s : Set_.t),
  (forall p, p ∈ names -> p ∈ s) ->
  foldl Set_.add s names = s.
Proof.
  induction names as [| p names IH]; intros s Hs; [reflexivity |].
  cbn [foldl]. unfold Set_.add at 2.
  replace (Set_.has s p) with true.
  - apply IH. intros q Hq. apply Hs, list_elem_of_further, Hq.
  - symmetry. apply Set_has_true, Hs, list_elem_of_here.
Qed.

Lemma add_role_permissions (l : list RolePermission.t) : forall (s : Set_.t),
  foldl (fun permissions rolePermission =>
           Set_.add permissions
             (Permission.name (RolePermission.permission rolePermission)))
        s l
  = foldl Set_.add s
      ((fun rp => Permission.name (RolePermission.permission rp)) <$> l).
Proof.
  induction l as [| rp l IH]; intros s; [reflexivity |]. cbn. apply IH.
Qed.

(** X5. A role membership added after the others changes nothing in the set
    [rbac] builds when every name it grants is granted already: the set,
    with its order, stays the same. *)
Theorem rbac_permissions_ignore_a_redundant_role
    (user : User.t) (userRole : UserRole.t) :
  (forall p, p ∈ granted_by userRole -> p ∈ rbac_permissions user) ->
  rbac_permissions (with_role (length (User.roles user)) userRole user)
  = rbac_permissions user.
Proof.
  intros Hknown. unfold rbac_permissions, with_role. cbn [User.roles].
  rewrite firstn_all, drop_all, foldl_app. cbn [foldl].
  rewrite add_role_permissions. apply add_known_names. exact Hknown.
Qed.

Lemma rbac_permissions_ignore_a_redundant_role_witness :
  rbac_permissions (with_role (length (User.roles Seed.docUser))
                              (UserRole.mk Seed.nurse) Seed.docUser)
  = rbac_permissions Seed.docUser.
Proof.
  apply (rbac_permissions_ignore_a_redundant_role Seed.docUser (UserRole.mk Seed.nurse)).
  intros p Hp. change (p ∈ ["record:read"]) in Hp.
  apply list_elem_of_singleton in Hp. subst p. compute_done.
Defined.

(** ** [getRecordById] *)

(** X6. [getRecordById] returns only a stored record whose key is the id
    asked for.  It throws a [NotFoundError] when the store answered and no
    stored record has that key, and a [DatabaseError] with a fixed message
    when the store rejected the read; it throws nothing else, so neither the
    error of the store nor its message reach the caller. *)
Theorem getRecordById_outcomes (id : number) (st : State) :
  match fst (getRecordById id st) with
  | inr X =>
      outage st (Prisma.patientRecord_findUnique id) = None
      /\ X ∈ Prisma.patientRecord (tables st)
      /\ id = Fin (PatientRecord.id X)
  | inl e =>
      (e = NotFoundError [Lit "Record with ID "; Num id; Lit " not found"]
       /\ outage st (Prisma.patientRecord_findUnique id) = None
       /\ forall X, X ∈ Prisma.patientRecord (tables st) ->
                    id <> Fin (PatientRecord.id X))
      \/ (e = DatabaseError [Lit "Failed to fetch record"]
          /\ exists m, outage st (Prisma.patientRecord_findUnique id) = Some m)
  end.
Proof.
  rewrite getRecordById_run.
  destruct (outage st (Prisma.patientRecord_findUnique id)) as [m |].
  { right. split; [reflexivity | eexists; reflexivity]. }
  destruct (PrismaClient.patientRecord_lookup id (tables st)) as [X |] eqn:HX.
  - apply patientRecord_lookup_found in HX as [HX Hid]. tauto.
  - left. split; [reflexivity |]. split; [reflexivity |].
    apply patientRecord_lookup_missing, HX.
Qed.

(** X7. A call of [getRecordById] leaves the tables as they were and adds
    to the journal the one read of the record and, when the store rejected
    it, one line at level error that carries the error of the store. *)
Theorem getRecordById_reads_once (id : number) (st : State) :
  tables (snd (getRecordById id st)) = tables st
  /\ journal (snd (getRecordById id st))
     = journal st
       ++ Issued (Prisma.patientRecord_findUnique id)
          :: match outage st (Prisma.patientRecord_findUnique id) with
             | Some m =>
                 [Logged (Logger.mkEntry Logger.error
                            [Lit "Record fetch error:"]
                            (Logger.Caught (Other m)))]
             | None => []
             end.
Proof.
  unfold getRecordById. open_run.
  destruct (outage st (Prisma.patientRecord_findUnique id)) as [m |].
  { cbn. split; [reflexivity |]. rewrite <- app_assoc. reflexivity. }
  destruct (PrismaClient.patientRecord_lookup id (tables st)) as [X |];
    cbn; eval_instanceof; cbn; split; reflexivity.
Qed.

(** ** The ReBAC route: the middleware, then the fetch *)

(** X8. In the route GET /rebac/:id the handler fetches, after
    [rebacResource] has let the request through, the record under the same
    parsed id.  Over unchanged tables and with the read answered, the fetch
    returns a record that the user of the request owns or to whose owner a
    row of the required type links the user. *)
Theorem rebac_route_returns_only_permitted_records
    (relationType : string) (req : AuthRequest.t) (st st2 : State) :
  fst (rebacResource relationType req st) = next ->
  tables st2 = tables st ->
  outage st2 (Prisma.patientRecord_findUnique
                (parseInt (Params.id (AuthRequest.params req)))) = None ->
  exists (user : User.t) (X : PatientRecord.t),
    AuthRequest.user req = Some user
    /\ fst (getRecordById (parseInt (Params.id (AuthRequest.params req))) st2)
       = inr X
    /\ (PatientRecord.ownerId X = User.id user
        \/ Relationship.mk (User.id user) (PatientRecord.ownerId X) relationType
             ∈ Prisma.relationship (tables st)).
Proof.
  intros Hnext Htables Hup.
  pose proof (rebac_run relationType req st) as R. cbv zeta in R.
  rewrite Hnext in R.
  destruct (AuthRequest.user req) as [user |]; [| discriminate].
  destruct (Js.not _ || isNaN _ || lt _ 1); [discriminate |].
  destruct (outage st (Prisma.patientRecord_findUnique _)); [discriminate |].
  destruct (PrismaClient.patientRecord_lookup _ (tables st)) as [X |] eqn:HX;
    [| discriminate].
  exists user, X. split; [reflexivity |].
  split; [rewrite getRecordById_run, Hup, Htables, HX; reflexivity |].
  destruct (PatientRecord.ownerId X =? User.id user) eqn:Hown.
  { left. apply Z.eqb_eq, Hown. }
  destruct (outage st (Prisma.relationship_findUnique _ _ _)); [discriminate |].
  destruct (PrismaClient.relationship_lookup _ _ _ _) as [edge |] eqn:He;
    [| discriminate].
  right. eapply relationship_lookup_found, He.
Qed.

Lemma rebac_route_returns_only_permitted_records_witness :
  exists (user : User.t) (X : PatientRecord.t),
    AuthRequest.user (Seed.request (Some Seed.docUser) "2") = Some user
    /\ fst (getRecordById
              (parseInt (Params.id (AuthRequest.params
                                      (Seed.request (Some Seed.docUser) "2"))))
              (snd (rebacResource "assigned_to"
                                  (Seed.request (Some Seed.docUser) "2") Seed.up)))
       = inr X
    /\ (PatientRecord.ownerId X = User.id user
        \/ Relationship.mk (User.id user) (PatientRecord.ownerId X) "assigned_to"
             ∈ Prisma.relationship (tables Seed.up)).
Proof.
  apply (rebac_route_returns_only_permitted_records "assigned_to"
           (Seed.request (Some Seed.docUser) "2") Seed.up
           (snd (rebacResource "assigned_to"
                               (Seed.request (Some Seed.docUser) "2") Seed.up)));
    reflexivity.
Defined.

(** ** Decimal ids *)

Lemma parseInt_digit_head (c : ascii) (v : Z) (s : string) :
  digitValue c = Some v ->
  parseInt (String c s)
  = match digits (String c s) None with
    | None => NaN
    | Some m => roundToDouble m
    end.
Proof.
  destruct c as [[] [] [] [] [] [] [] []]; try discriminate; intros _; reflexivity.
Qed.

Lemma digits_digit (c : ascii) (s : string) (a v : Z) :
  digitValue c = Some v ->
  digits (String c s) (Some a) = digits s (Some (10 * a + v)).
Proof. intros H. cbn [digits]. rewrite H. reflexivity. Qed.

Lemma append_cons (c : ascii) (s t : string) :
  String c s +:+ t = String c (s +:+ t).
Proof. reflexivity. Qed.

Lemma digits_of_numeral (d : Decimal.uint) (tail : string) : forall a : nat,
  digits (NilEmpty.string_of_uint d +:+ tail) (Some (Z.of_nat a))
  = digits tail (Some (Z.of_nat (Nat.of_uint_acc d a))).
Proof.
  induction d as [| d IH | d IH | d IH | d IH | d IH | d IH | d IH | d IH | d IH | d IH];
    intros a; [reflexivity | ..];
    cbn [NilEmpty.string_of_uint Nat.of_uint_acc]; rewrite append_cons;
    match goal with
    | |- digits (String ?c _) _ = _ =>
        let v := eval vm_compute in (digitValue c) in
        match v with
        | Some ?k => rewrite (digits_digit c _ _ k eq_refl)
        end
    end;
    rewrite <- IH; f_equal; f_equal;
    rewrite ?Nat2Z.inj_succ, Nat.tail_mul_spec, Nat2Z.inj_mul; cbn; lia.
Qed.

Lemma digits_stop (tail : string) (acc : option Z) :
  tail = "" \/ (exists c t, tail = String c t /\ digitValue c = None) ->
  digits tail acc = acc.
Proof.
  intros [-> | (c & t & -> & Hc)]; [reflexivity |]. cbn. rewrite Hc. reflexivity.
Qed.

Lemma numeral_head (n : nat) :
  (1 <= n)%nat ->
  exists c s v, NilEmpty.string_of_uint (Nat.to_uint n) = String c s
                /\ digitValue c = Some v.
Proof.
  intros Hn. pose proof (DecimalNat.Unsigned.of_to n) as E.
  destruct (Nat.to_uint n) as [| d | d | d | d | d | d | d | d | d | d];
    [cbn in E; lia | ..]; cbn [NilEmpty.string_of_uint];
    eexists _, _, _; (split; [reflexivity | reflexivity]).
Qed.

Lemma roundToDouble_exact (z : Z) : 0 <= z < 2 ^ 53 -> roundToDouble z = Fin z.
Proof.
  intros Hz. unfold roundToDouble. cbv zeta.
  rewrite Z.abs_eq by lia.
  destruct (z <? 2 ^ 53) eqn:E; [reflexivity |]. apply Z.ltb_ge in E. lia.
Qed.

Lemma parseInt_decimal (n : Z) (tail : string) :
  1 <= n < 2 ^ 53 ->
  tail = "" \/ (exists c t, tail = String c t /\ digitValue c = None) ->
  parseInt (JsString.decimal n +:+ tail) = Fin n.
Proof.
  intros Hn Htail. unfold JsString.decimal.
  destruct (numeral_head (Z.to_nat n)) as (c & s & v & Hs & Hc); [lia |].
  assert (Hd : digits (NilEmpty.string_of_uint (Nat.to_uint (Z.to_nat n)) +:+ tail) None
               = Some n).
  { transitivity (digits (NilEmpty.string_of_uint (Nat.to_uint (Z.to_nat n)) +:+ tail)
                         (Some (Z.of_nat 0))).
    - rewrite Hs, append_cons. cbn [digits]. rewrite Hc. reflexivity.
    - rewrite digits_of_numeral, (digits_stop _ _ Htail).
      fold (Nat.of_uint (Nat.to_uint (Z.to_nat n))).
      rewrite DecimalNat.Unsigned.of_to, Z2Nat.id by lia. reflexivity. }
  rewrite Hs in Hd |- *. rewrite append_cons in Hd |- *.
  rewrite (parseInt_digit_head c v _ Hc), Hd.
  apply roundToDouble_exact. lia.
Qed.



(** ** src/config.ts *)

Lemma truthy_Some (v : option string) (s : string) :
  JsString.truthy v = Some s <-> v = Some s /\ s <> "".
Proof.
  destruct v as [[| c v] |]; cbn; split;
    try (intros [= <-]); try (intros [[= <-] H]); try discriminate;
    try (split; [reflexivity | discriminate]); try reflexivity.
  contradiction.
Qed.

Lemma truthy_None (v : option string) :
  JsString.truthy v = None <-> v = None \/ v = Some "".
Proof.
  destruct v as [[| c v] |]; cbn; split; try tauto; try discriminate.
  intros [H | H]; discriminate.
Qed.

(** X10. [getEnvVar] never returns the empty string.  A variable that is
    set to a non-empty value is returned whatever the default; a variable
    that is unset or empty gives the default, when that is non-empty, and
    the error that names the variable otherwise: an empty value counts as
    unset and an empty default as none. *)
Theorem getEnvVar_outcomes
    (env : gmap string string) (name : string) (defaultValue : option string) :
  match Config.getEnvVar env name defaultValue with
  | inr v =>
      v <> ""
      /\ (env !! name = Some v
          \/ ((env !! name = None \/ env !! name = Some "")
              /\ defaultValue = Some v))
  | inl e =>
      e = Config.Error ("Missing required environment variable: " +:+ name)
      /\ (env !! name = None \/ env !! name = Some "")
      /\ (defaultValue = None \/ defaultValue = Some "")
  end.
Proof.
  unfold Config.getEnvVar. cbv zeta.
  destruct (JsString.truthy (env !! name)) as [v |] eqn:Ev.
  - apply truthy_Some in Ev as [Ev Hv]. tauto.
  - apply truthy_None in Ev.
    destruct (JsString.truthy defaultValue) as [d |] eqn:Ed.
    + apply truthy_Some in Ed as [Ed Hd]. tauto.
    + apply truthy_None in Ed. tauto.
Qed.

(** X11. [getEnvVarAsNumber] takes a variable that is set and not empty
    from the environment and from nowhere else: it returns what [parseInt]
    reads in it, never NaN, and throws when that is NaN, default or not.
    Only for an unset or empty variable does it return the default, and
    throw when there is none. *)
Theorem getEnvVarAsNumber_outcomes
    (env : gmap string string) (name : string) (defaultValue : option number) :
  match Config.getEnvVarAsNumber env name defaultValue with
  | inr num =>
      (exists v, env !! name = Some v /\ v <> "" /\ num = parseInt v /\ num <> NaN)
      \/ ((env !! name = None \/ env !! name = Some "")
          /\ defaultValue = Some num)
  | inl e =>
      (e = Config.Error ("Invalid number for environment variable: " +:+ name)
       /\ exists v, env !! name = Some v /\ v <> "" /\ parseInt v = NaN)
      \/ (e = Config.Error ("Missing required environment variable: " +:+ name)
          /\ (env !! name = None \/ env !! name = Some "")
          /\ defaultValue = None)
  end.
Proof.
  unfold Config.getEnvVarAsNumber. cbv zeta.
  destruct (JsString.truthy (env !! name)) as [v |] eqn:Ev.
  - apply truthy_Some in Ev as [Ev Hv].
    destruct (parseInt v) as [| z | |] eqn:Ep; cbn.
    + left. split; [reflexivity |]. exists v. tauto.
    + left. exists v. repeat split; try assumption; try discriminate.
      symmetry. exact Ep.
    + left. exists v. repeat split; try assumption; try discriminate.
      symmetry. exact Ep.
    + left. exists v. repeat split; try assumption; try discriminate.
      symmetry. exact Ep.
  - apply truthy_None in Ev. destruct defaultValue as [d |]; tauto.
Qed.

Section Strings.

Lemma includes_char (c : ascii) (s : string) :
  JsString.includes (String c "") s = true <-> In c (list_ascii_of_string s).
Proof.
  induction s as [| b s IH]; cbn; [split; [discriminate | tauto] |].
  destruct (ascii_dec c b) as [-> | Hne].
  - destruct s; cbn; tauto.
  - rewrite IH. cbn. split; [tauto |]. intros [H | H]; [congruence | exact H].
Qed.

Lemma includes_char_false (c : ascii) (s : string) :
  JsString.includes (String c "") s = false <-> ~ In c (list_ascii_of_string s).
Proof.
  rewrite <- includes_char. destruct (JsString.includes _ s); split; congruence.
Qed.

Lemma split_nonempty (sep : ascii) (s : string) : JsString.split sep s <> [].
Proof.
  destruct s as [| c s]; cbn; [discriminate |].
  destruct (Ascii.eqb c sep); [discriminate |].
  destruct (JsString.split sep s); discriminate.
Qed.

Lemma split_length (sep : ascii) (s : string) :
  length (JsString.split sep s)
  = S (count_occ ascii_dec (list_ascii_of_string s) sep).
Proof.
  induction s as [| c s IH]; [reflexivity |]. cbn.
  destruct (Ascii.eqb_spec c sep) as [-> | Hne].
  - cbn. rewrite IH. destruct (ascii_dec sep sep); [reflexivity | contradiction].
  - destruct (ascii_dec c sep); [contradiction |].
    pose proof (split_nonempty sep s).
    destruct (JsString.split sep s); [contradiction |]. exact IH.
Qed.

Lemma split_pieces (sep : ascii) (s : string) :
  Forall (fun piece => ~ In sep (list_ascii_of_string piece)) (JsString.split sep s).
Proof.
  induction s as [| c s IH]; cbn.
  - constructor; [tauto | constructor].
  - destruct (Ascii.eqb_spec c sep) as [-> | Hne].
    + constructor; [cbn; tauto | exact IH].
    + destruct (JsString.split sep s) as [| piece pieces];
        [constructor; [cbn; intuition congruence | constructor] |].
      apply Forall_cons in IH as [Hp Hps].
      constructor; [| exact Hps]. cbn. intuition congruence.
Qed.

Lemma trimStart_chars (c : ascii) (s : string) :
  In c (list_ascii_of_string (trimStart s)) -> In c (list_ascii_of_string s).
Proof.
  induction s as [| b s IH]; cbn; [tauto |].
  destruct (isWhiteSpace b); cbn; tauto.
Qed.

Lemma trimEnd_chars (c : ascii) (s : string) :
  In c (list_ascii_of_string (JsString.trimEnd s)) -> In c (list_ascii_of_string s).
Proof.
  induction s as [| b s IH]; cbn; [tauto |].
  destruct (JsString.trimEnd s) as [| b' s'].
  - destruct (isWhiteSpace b); cbn; tauto.
  - cbn in *. tauto.
Qed.

Lemma trimStart_fixed (s : string) : trimStart (trimStart s) = trimStart s.
Proof.
  induction s as [| b s IH]; cbn; [reflexivity |].
  destruct (isWhiteSpace b) eqn:E; [exact IH |]. cbn. rewrite E. reflexivity.
Qed.

Lemma trimEnd_fixed (s : string) :
  JsString.trimEnd (JsString.trimEnd s) = JsString.trimEnd s.
Proof.
  induction s as [| b s IH]; cbn; [reflexivity |].
  destruct (JsString.trimEnd s) as [| b' s'] eqn:E.
  - destruct (isWhiteSpace b) eqn:Eb; cbn; [reflexivity |]. rewrite Eb. reflexivity.
  - cbn [JsString.trimEnd]. cbn [JsString.trimEnd] in IH. rewrite IH. reflexivity.
Qed.

Lemma trimStart_trimEnd (s : string) :
  trimStart s = s -> trimStart (JsString.trimEnd s) = JsString.trimEnd s.
Proof.
  destruct s as [| b s]; [reflexivity |]. cbn.
  destruct (isWhiteSpace b) eqn:Eb.
  - intros H. exfalso.
    assert (L : (String.length (trimStart s) <= String.length s)%nat).
    { clear. induction s as [| c s IH]; cbn; [lia |].
      destruct (isWhiteSpace c); cbn; lia. }
    rewrite H in L. cbn in L. lia.
  - intros _. destruct (JsString.trimEnd s); cbn; rewrite Eb; reflexivity.
Qed.

Lemma trim_fixed (s : string) : JsString.trim (JsString.trim s) = JsString.trim s.
Proof.
  unfold JsString.trim.
  rewrite (trimStart_trimEnd (trimStart s) (trimStart_fixed s)).
  apply trimEnd_fixed.
Qed.

End Strings.

Lemma append_last_nonempty (t : string) (c : ascii) : t +:+ String c "" <> "".
Proof. destruct t; discriminate. Qed.

Lemma split_join (sep : ascii) (s : string) :
  String.concat (String sep "") (JsString.split sep s) = s.
Proof.
  induction s as [| c s IH]; [reflexivity |]. cbn [JsString.split].
  pose proof (split_nonempty sep s) as Hne.
  destruct (Ascii.eqb_spec c sep) as [-> | Hc].
  - destruct (JsString.split sep s) as [| piece pieces]; [contradiction |].
    cbn [String.concat] in *. cbn. rewrite IH. reflexivity.
  - destruct (JsString.split sep s) as [| piece pieces]; [contradiction |].
    destruct pieces as [| piece' pieces]; cbn [String.concat] in *.
    + rewrite IH. reflexivity.
    + rewrite <- IH. reflexivity.
Qed.

Lemma trimStart_blank (s : string) :
  exists l, s = l +:+ trimStart s /\ blank l.
Proof.
  induction s as [| c s (l & Hs & Hl)]; cbn.
  - exists "". split; [reflexivity | constructor].
  - destruct (isWhiteSpace c) eqn:E.
    + exists (String c l). split; [rewrite append_cons, <- Hs; reflexivity |].
      constructor; assumption.
    + exists "". split; [reflexivity | constructor].
Qed.

Lemma trimEnd_blank (s : string) :
  exists r, s = JsString.trimEnd s +:+ r /\ blank r.
Proof.
  induction s as [| c s (r & Hs & Hr)]; cbn.
  - exists "". split; [reflexivity | constructor].
  - destruct (JsString.trimEnd s) as [| b u] eqn:E.
    + change (s = r) in Hs. subst r. destruct (isWhiteSpace c) eqn:Ec.
      * exists (String c s). split; [reflexivity |]. constructor; assumption.
      * exists s. split; [reflexivity | exact Hr].
    + exists r. split; [rewrite append_cons, <- Hs; reflexivity | exact Hr].
Qed.

Lemma trimStart_head (s : string) (c : ascii) (t : string) :
  trimStart s = String c t -> isWhiteSpace c = false.
Proof.
  induction s as [| b s IH]; cbn; [discriminate |].
  destruct (isWhiteSpace b) eqn:E; [exact IH |]. intros [= <- _]. exact E.
Qed.

Lemma trimEnd_head (s : string) (c : ascii) (t : string) :
  JsString.trimEnd s = String c t -> exists s', s = String c s'.
Proof.
  destruct s as [| b s]; cbn; [discriminate |].
  destruct (JsString.trimEnd s).
  - destruct (isWhiteSpace b); [discriminate |]. intros [= <- _]. eexists. reflexivity.
  - intros [= <- _]. eexists. reflexivity.
Qed.

Lemma trimEnd_last (s : string) : forall (t : string) (c : ascii),
  JsString.trimEnd s = t +:+ String c "" -> isWhiteSpace c = false.
Proof.
  induction s as [| b s IH]; intros t c; cbn [JsString.trimEnd].
  - intros H. destruct t; discriminate H.
  - destruct (JsString.trimEnd s) as [| x y] eqn:E.
    + destruct (isWhiteSpace b) eqn:Eb.
      * intros H. destruct t; discriminate H.
      * destruct t as [| a t]; rewrite ?append_cons.
        -- intros [= <-]. exact Eb.
        -- intros [= _ H]. destruct t; discriminate H.
    + destruct t as [| a t]; rewrite ?append_cons.
      * intros H. discriminate H.
      * intros [= _ H]. apply (IH t c). exact H.
Qed.

Lemma trim_trimmed (s : string) : trimmed (JsString.trim s).
Proof.
  unfold trimmed, JsString.trim. split.
  - intros c t H. destruct (trimEnd_head _ _ _ H) as [s' Hs'].
    apply (trimStart_head s c s'), Hs'.
  - intros t c H. exact (trimEnd_last (trimStart s) t c H).
Qed.

Lemma trim_blank (s : string) :
  exists l r, s = l +:+ JsString.trim s +:+ r /\ blank l /\ blank r.
Proof.
  destruct (trimStart_blank s) as (l & Hs & Hl).
  destruct (trimEnd_blank (trimStart s)) as (r & Ht & Hr).
  exists l, r. unfold JsString.trim. rewrite <- Ht. tauto.
Qed.

(** X12. [parseCorsOrigin] returns a string without a comma as it is, be
    it "*" or not, spaces included.  A string with commas becomes the list
    of its pieces between the commas, one more than there are commas, each
    trimmed at both ends and free of commas: the pieces hold no comma and,
    joined by commas, give the string back, and each element of the list is
    its piece without the white space around it. *)
Theorem parseCorsOrigin_outcomes (origin : string) :
  match Config.parseCorsOrigin origin with
  | Config.One o => o = origin /\ JsString.includes "," origin = false
  | Config.Many os =>
      JsString.includes "," origin = true
      /\ length os = S (count_occ ascii_dec (list_ascii_of_string origin) ","%char)
      /\ Forall (fun o => JsString.trim o = o /\ JsString.includes "," o = false) os
      /\ exists pieces,
           String.concat "," pieces = origin
           /\ Forall (fun piece => JsString.includes "," piece = false) pieces
           /\ Forall2 (fun piece o =>
                         trimmed o
                         /\ exists l r, piece = l +:+ o +:+ r /\ blank l /\ blank r)
                      pieces os
  end.
Proof.
  unfold Config.parseCorsOrigin.
  destruct (String.eqb_spec origin "*") as [-> | Hne]; [split; reflexivity |].
  destruct (JsString.includes "," origin) eqn:E; [| split; reflexivity].
  split; [reflexivity |]. split; [| split].
  - rewrite length_fmap. apply split_length.
  - apply Forall_fmap. eapply Forall_impl; [apply split_pieces |].
    intros piece Hp. cbn. split; [apply trim_fixed |].
    apply includes_char_false. intros Hin. apply Hp.
    unfold JsString.trim in Hin. apply trimStart_chars, trimEnd_chars, Hin.
  - exists (JsString.split "," origin). split; [apply split_join |]. split.
    + eapply Forall_impl; [apply split_pieces |].
      intros piece Hp. apply includes_char_false, Hp.
    + apply Forall2_fmap_r, Forall_Forall2_diag, Forall_forall.
      intros piece _. split; [apply trim_trimmed | apply trim_blank].
Qed.

(** The origins of the example environment, piece by piece. *)
Example parseCorsOrigin_pieces :
  Config.parseCorsOrigin " https://a.example.com ,https://b.example.com,, "
  = Config.Many ["https://a.example.com"; "https://b.example.com"; ""; ""].
Proof. reflexivity. Qed.

Lemma getEnvVar_required (env : gmap string string) (name v : string) :
  Config.getEnvVar env name None = inr v -> env !! name = Some v /\ v <> "".
Proof.
  unfold Config.getEnvVar. cbv zeta.
  destruct (JsString.truthy (env !! name)) as [w |] eqn:Ev; cbn; [| discriminate].
  intros [= ->]. apply truthy_Some, Ev.
Qed.

Lemma getEnvVarAsNumber_defaulted
    (env : gmap string string) (name : string) (k : Z) (num : number) :
  Config.getEnvVarAsNumber env name (Some (Fin k)) = inr num -> num <> NaN.
Proof.
  unfold Config.getEnvVarAsNumber. cbv zeta.
  destruct (JsString.truthy (env !! name)) as [w |].
  - destruct (parseInt w); cbn; intros [= <-]; discriminate.
  - intros [= <-]. discriminate.
Qed.

Ltac config_steps H :=
  unfold Config.config in H;
  repeat match type of H with
         | Config.and_then ?r _ = inr _ =>
             let E := fresh "E" in
             destruct r eqn:E; cbn [Config.and_then] in H; [discriminate H |]
         end.

(** X13. A configuration is only built from an environment in which
    DATABASE_URL and JWT_SECRET are set and not empty: they have no default,
    and the configuration holds their values.  None of its five numbers is
    NaN. *)
Theorem config_has_its_required_variables
    (env : gmap string string) (cfg : Config.t) :
  Config.config env = inr cfg ->
  (env !! "DATABASE_URL" = Some (Config.databaseUrl cfg)
   /\ Config.databaseUrl cfg <> "")
  /\ (env !! "JWT_SECRET" = Some (Config.secret (Config.jwt cfg))
      /\ Config.secret (Config.jwt cfg) <> "")
  /\ Config.port cfg <> NaN
  /\ Config.windowMs (Config.rateLimit cfg) <> NaN
  /\ Config.max (Config.rateLimit cfg) <> NaN
  /\ Config.bcryptRounds (Config.security cfg) <> NaN
  /\ Config.minPasswordLength (Config.security cfg) <> NaN.
Proof.
  intros H. config_steps H. injection H as <-. cbn.
  repeat match goal with
         | E : Config.getEnvVar _ _ None = inr _ |- _ =>
             apply getEnvVar_required in E
         | E : Config.getEnvVarAsNumber _ _ (Some (Fin _)) = inr _ |- _ =>
             apply getEnvVarAsNumber_defaulted in E
         end.
  tauto.
Qed.

Lemma config_has_its_required_variables_witness :
  (Deploy.env !! "DATABASE_URL" = Some (Config.databaseUrl Deploy.config)
   /\ Config.databaseUrl Deploy.config <> "")
  /\ (Deploy.env !! "JWT_SECRET" = Some (Config.secret (Config.jwt Deploy.config))
      /\ Config.secret (Config.jwt Deploy.config) <> "")
  /\ Config.port Deploy.config <> NaN
  /\ Config.windowMs (Config.rateLimit Deploy.config) <> NaN
  /\ Config.max (Config.rateLimit Deploy.config) <> NaN
  /\ Config.bcryptRounds (Config.security Deploy.config) <> NaN
  /\ Config.minPasswordLength (Config.security Deploy.config) <> NaN.
Proof.
  apply (config_has_its_required_variables Deploy.env Deploy.config).
  vm_compute. reflexivity.
Defined.

(** X14. When the module loads with NODE_ENV set to production, the JWT
    secret of the configuration has at least 32 characters and is not the
    database URL; a warning is printed for a database URL that contains
    "localhost" and for the CORS origin "*", and for nothing else. *)
Theorem load_in_production
    (env : gmap string string) (cfg : Config.t) (warnings : list Config.warning) :
  Config.load env = inr (cfg, warnings) ->
  Config.nodeEnv cfg = "production" ->
  32 <= Z.of_nat (String.length (Config.secret (Config.jwt cfg)))
  /\ Config.secret (Config.jwt cfg) <> Config.databaseUrl cfg
  /\ (Config.LocalhostDatabase ∈ warnings
      <-> JsString.includes "localhost" (Config.databaseUrl cfg) = true)
  /\ (Config.WildcardCors ∈ warnings <-> Config.corsOrigin cfg = Config.One "*").
Proof.
  unfold Config.load. intros H Hprod.
  destruct (Config.config env) as [e | cfg'] eqn:Ecfg; [discriminate |].
  cbn [Config.and_then] in H.
  destruct (Config.validate env cfg') as [e | ws] eqn:Ev; [discriminate |].
  cbn [Config.and_then] in H. injection H as -> ->.
  unfold Config.validate in Ev. rewrite Hprod in Ev. cbn [String.eqb] in Ev.
  replace (String.eqb "production" "production") with true in Ev by reflexivity.
  destruct (String.eqb _ "secret" || _ || _) eqn:Eweak; [discriminate |].
  apply orb_false_elim in Eweak as [Eweak Esame].
  apply orb_false_elim in Eweak as [_ Elen].
  apply Z.ltb_ge in Elen. apply bool_decide_eq_false in Esame.
  assert (Hdb : env !! "DATABASE_URL" = Some (Config.databaseUrl cfg)
                /\ Config.databaseUrl cfg <> "").
  { clear - Ecfg. config_steps Ecfg. injection Ecfg as <-. cbn.
    match goal with
    | E : Config.getEnvVar _ "DATABASE_URL" None = inr _ |- _ =>
        apply getEnvVar_required in E; exact E
    end. }
  destruct Hdb as [Hdb Hne].
  split; [exact Elen |].
  split; [intros Heq; apply Esame; rewrite Hdb, Heq; reflexivity |].
  injection Ev as <-.
  replace (String.eqb (Config.databaseUrl cfg) "") with false
    by (symmetry; apply String.eqb_neq, Hne).
  cbn [orb].
  destruct (JsString.includes "localhost" (Config.databaseUrl cfg));
    destruct (decide (Config.corsOrigin cfg = Config.One "*")) as [Hc | Hc];
    [rewrite (bool_decide_eq_true_2 _ Hc) | rewrite (bool_decide_eq_false_2 _ Hc)
     | rewrite (bool_decide_eq_true_2 _ Hc) | rewrite (bool_decide_eq_false_2 _ Hc)];
    cbn; rewrite ?elem_of_cons, ?elem_of_nil;
    repeat split; intros; try tauto; try discriminate; try congruence;
    repeat match goal with
           | H : _ \/ _ |- _ => destruct H
           end; try tauto; try discriminate; try congruence.
Qed.

Lemma load_in_production_witness :
  32 <= Z.of_nat (String.length (Config.secret (Config.jwt Deploy.config)))
  /\ Config.secret (Config.jwt Deploy.config) <> Config.databaseUrl Deploy.config
  /\ (Config.LocalhostDatabase ∈ []
      <-> JsString.includes "localhost" (Config.databaseUrl Deploy.config) = true)
  /\ (Config.WildcardCors ∈ [] <-> Config.corsOrigin Deploy.config = Config.One "*").
Proof.
  apply (load_in_production Deploy.env Deploy.config []).
  - vm_compute. reflexivity.
  - reflexivity.
Defined.

(** ** [requireAuth] *)

Section AuthFacts.

Variable config : Config.t.
Variable jwt_verify : string -> string -> Jwt.VerifyOptions -> Jwt.verified.
Variable user_findUnique : Z -> string + option User.t.

Let refused (req : Request.t) (m : string) : handover * AuthRequest.t :=
  (next_error (UnauthorizedError [Lit m]), AuthRequest.mk None (Request.params req)).

(** [requireAuth], exit by exit: what it hands over and the request it
    leaves to the next middleware. *)
Lemma requireAuth_run (req : Request.t) (st : State) :
  fst (requireAuth config jwt_verify user_findUnique req st) =
  match JsString.truthy (Request.authorization req) with
  | None => refused req "Missing or invalid authorization header"
  | Some authHeader =>
      if negb (JsString.startsWith "Bearer " authHeader) then
        refused req "Missing or invalid authorization header"
      else
        match JsString.truthy (JsString.split " "%char authHeader !! 1%nat) with
        | None => refused req "Token not provided"
        | Some token =>
            match jwt_verify token (Config.secret (Config.jwt config))
                             (verifyOptions config) with
            | Jwt.Payload None | Jwt.Payload (Some 0) =>
                refused req "Invalid token payload"
            | Jwt.Payload (Some userId) =>
                match user_findUnique userId with
                | inl _ => refused req "Authentication failed"
                | inr None => refused req "User not found"
                | inr (Some user) =>
                    (next, AuthRequest.mk (Some user) (Request.params req))
                end
            | Jwt.TokenExpiredError => refused req "Token expired"
            | Jwt.JsonWebTokenError => refused req "Invalid token"
            | Jwt.Failure _ => refused req "Authentication failed"
            end
        end
  end.
Proof.
  unfold requireAuth, requireAuth_try, requireAuth_catch, refused. open_run.
  destruct (JsString.truthy (Request.authorization req)) as [authHeader |];
    [| cbn; eval_instanceof; reflexivity].
  destruct (negb (JsString.startsWith "Bearer " authHeader));
    [cbn; eval_instanceof; reflexivity |].
  destruct (JsString.truthy (JsString.split " "%char authHeader !! 1%nat))
    as [token |]; [| cbn; eval_instanceof; reflexivity].
  destruct (jwt_verify token _ _) as [[[| p | p] |] | | | m];
    try (cbn; eval_instanceof; reflexivity).
  - destruct (user_findUnique (Z.pos p)) as [m | [user |]];
      cbn; eval_instanceof; reflexivity.
  - destruct (user_findUnique (Z.neg p)) as [m | [user |]];
      cbn; eval_instanceof; reflexivity.
Qed.

(** X15. [requireAuth] ends in one of two ways: it calls [next()] with a
    user set on the request, or it hands over an [UnauthorizedError] and
    leaves the request without user.  No other error leaves it, whatever the
    header, the token check and the store do. *)
Theorem requireAuth_lets_through_or_answers_401 (req : Request.t) (st : State) :
  (exists user,
      fst (requireAuth config jwt_verify user_findUnique req st)
      = (next, AuthRequest.mk (Some user) (Request.params req)))
  \/ (exists m,
         fst (requireAuth config jwt_verify user_findUnique req st)
         = (next_error (UnauthorizedError [Lit m]),
            AuthRequest.mk None (Request.params req))
         /\ errorHandler_status (UnauthorizedError [Lit m]) = 401).
Proof.
  rewrite requireAuth_run. unfold refused.
  destruct (JsString.truthy (Request.authorization req)) as [authHeader |];
    [| right; eexists; split; reflexivity].
  destruct (negb (JsString.startsWith "Bearer " authHeader));
    [right; eexists; split; reflexivity |].
  destruct (JsString.truthy (JsString.split " "%char authHeader !! 1%nat))
    as [token |]; [| right; eexists; split; reflexivity].
  destruct (jwt_verify token _ _) as [[[| p | p] |] | | | m];
    try (right; eexists; split; reflexivity).
  - destruct (user_findUnique (Z.pos p)) as [m | [user |]];
      try (right; eexists; split; reflexivity).
    left. eexists. reflexivity.
  - destruct (user_findUnique (Z.neg p)) as [m | [user |]];
      try (right; eexists; split; reflexivity).
    left. eexists. reflexivity.
Qed.

(** X16. When the token is accepted and the store rejects the read of the
    user, [requireAuth] answers with the [UnauthorizedError]
    "Authentication failed"; the error of the store goes to the log, at
    level error, and not to the caller. *)
Theorem requireAuth_hides_a_store_failure
    (req : Request.t) (st : State) (authHeader token : string)
    (userId : Z) (m : string) :
  JsString.truthy (Request.authorization req) = Some authHeader ->
  JsString.startsWith "Bearer " authHeader = true ->
  JsString.truthy (JsString.split " "%char authHeader !! 1%nat) = Some token ->
  jwt_verify token (Config.secret (Config.jwt config)) (verifyOptions config)
    = Jwt.Payload (Some userId) ->
  userId <> 0 ->
  user_findUnique userId = inl m ->
  fst (requireAuth config jwt_verify user_findUnique req st)
    = (next_error (UnauthorizedError [Lit "Authentication failed"]),
       AuthRequest.mk None (Request.params req))
  /\ journal (snd (requireAuth config jwt_verify user_findUnique req st))
     = journal st
       ++ [Logged (Logger.mkEntry Logger.error [Lit "Auth middleware error:"]
                                  (Logger.Caught (Other m)))].
Proof.
  intros Hh Hb Ht Hv Hid Hu.
  unfold requireAuth, requireAuth_try, requireAuth_catch. open_run.
  rewrite Hh, Hb, Ht, Hv. cbn [negb].
  destruct userId as [| p | p]; [contradiction | |]; rewrite Hu;
    cbn; eval_instanceof; cbn; split; reflexivity.
Qed.

(** X17. When [requireAuth] lets a request through, a token of the header
    was accepted by [jwt.verify] with a [userId] that is not zero, the store
    returned a user for that id, and this user is the one set on the
    request; [rbac] and [rebacResource], run on that request, do not answer
    "User not authenticated". *)
Theorem requireAuth_sets_the_user_of_the_token
    (req : Request.t) (st : State) (req' : AuthRequest.t) :
  fst (requireAuth config jwt_verify user_findUnique req st) = (next, req') ->
  exists (token : string) (userId : Z) (user : User.t),
    jwt_verify token (Config.secret (Config.jwt config)) (verifyOptions config)
      = Jwt.Payload (Some userId)
    /\ userId <> 0
    /\ user_findUnique userId = inr (Some user)
    /\ req' = AuthRequest.mk (Some user) (Request.params req)
    /\ (forall permissionName st',
           fst (rbac permissionName req' st')
           <> next_error (UnauthorizedError [Lit "User not authenticated"]))
    /\ (forall relationType st',
           fst (rebacResource relationType req' st')
           <> next_error (UnauthorizedError [Lit "User not authenticated"])).
Proof.
  rewrite requireAuth_run. unfold refused.
  destruct (JsString.truthy (Request.authorization req)) as [authHeader |];
    [| discriminate].
  destruct (negb (JsString.startsWith "Bearer " authHeader)); [discriminate |].
  destruct (JsString.truthy (JsString.split " "%char authHeader !! 1%nat))
    as [token |]; [| discriminate].
  destruct (jwt_verify token _ _) as [[userId |] | | | m] eqn:Hv; try discriminate.
  assert (Hcase :
            forall user, userId <> 0 -> user_findUnique userId = inr (Some user) ->
                         (next, AuthRequest.mk (Some user) (Request.params req))
                         = (next, req') ->
                         exists (token : string) (userId : Z) (user : User.t),
                           jwt_verify token (Config.secret (Config.jwt config))
                                      (verifyOptions config)
                           = Jwt.Payload (Some userId)
                           /\ userId <> 0
                           /\ user_findUnique userId = inr (Some user)
                           /\ req' = AuthRequest.mk (Some user) (Request.params req)
                           /\ (forall permissionName st',
                                  fst (rbac permissionName req' st')
                                  <> next_error
                                       (UnauthorizedError [Lit "User not authenticated"]))
                           /\ (forall relationType st',
                                  fst (rebacResource relationType req' st')
                                  <> next_error
                                       (UnauthorizedError [Lit "User not authenticated"]))).
  { intros user Hid Hu [= <-]. exists token, userId, user.
    repeat (split; [first [assumption | reflexivity] |]). split.
    - intros p st'. rewrite rbac_handover. cbn [AuthRequest.user].
      destruct (Set_.has _ p); discriminate.
    - intros t st' Hun.
      pose proof (rebac_run t (AuthRequest.mk (Some user) (Request.params req)) st')
        as R.
      cbv zeta in R. rewrite Hun in R. cbn [AuthRequest.user] in R.
      destruct (Js.not _ || isNaN _ || lt _ 1); [discriminate |].
      destruct (outage st' _); [discriminate |].
      destruct (PrismaClient.patientRecord_lookup _ _); [| discriminate].
      destruct (_ =? _); [discriminate |].
      destruct (outage st' _); [discriminate |].
      destruct (PrismaClient.relationship_lookup _ _ _ _); discriminate. }
  destruct userId as [| p | p]; [discriminate | |].
  - destruct (user_findUnique (Z.pos p)) as [m | [user |]] eqn:Hu;
      try discriminate.
    apply (Hcase user); [lia | reflexivity].
  - destruct (user_findUnique (Z.neg p)) as [m | [user |]] eqn:Hu;
      try discriminate.
    apply (Hcase user); [lia | reflexivity].
Qed.

End AuthFacts.

Lemma requireAuth_hides_a_store_failure_witness :
  fst (requireAuth Deploy.config Session.jwt_verify Session.user_unreachable
                   (Session.request (Some "Bearer doc")) Seed.up)
    = (next_error (UnauthorizedError [Lit "Authentication failed"]),
       AuthRequest.mk None (Request.params (Session.request (Some "Bearer doc"))))
  /\ journal (snd (requireAuth Deploy.config Session.jwt_verify
                               Session.user_unreachable
                               (Session.request (Some "Bearer doc")) Seed.up))
     = journal Seed.up
       ++ [Logged (Logger.mkEntry Logger.error [Lit "Auth middleware error:"]
                     (Logger.Caught (Other "Can't reach database server")))].
Proof.
  apply (requireAuth_hides_a_store_failure Deploy.config Session.jwt_verify
           Session.user_unreachable (Session.request (Some "Bearer doc")) Seed.up
           "Bearer doc" "doc" 1 "Can't reach database server");
    first [reflexivity | discriminate].
Defined.

Lemma requireAuth_sets_the_user_of_the_token_witness :
  exists (token : string) (userId : Z) (user : User.t),
    Session.jwt_verify token (Config.secret (Config.jwt Deploy.config))
                       (verifyOptions Deploy.config)
      = Jwt.Payload (Some userId)
    /\ userId <> 0
    /\ Session.user_findUnique userId = inr (Some user)
    /\ AuthRequest.mk (Some Seed.docUser) (Params.mk "1")
       = AuthRequest.mk (Some user)
                        (Request.params (Session.request (Some "Bearer doc")))
    /\ (forall permissionName st',
           fst (rbac permissionName
                     (AuthRequest.mk (Some Seed.docUser) (Params.mk "1")) st')
           <> next_error (UnauthorizedError [Lit "User not authenticated"]))
    /\ (forall relationType st',
           fst (rebacResource relationType
                              (AuthRequest.mk (Some Seed.docUser) (Params.mk "1")) st')
           <> next_error (UnauthorizedError [Lit "User not authenticated"])).
Proof.
  apply (requireAuth_sets_the_user_of_the_token Deploy.config Session.jwt_verify
           Session.user_findUnique (Session.request (Some "Bearer doc")) Seed.up
           (AuthRequest.mk (Some Seed.docUser) (Params.mk "1"))).
  reflexivity.
Defined.

(** ** The header of [requireAuth] *)

Lemma prefix_app (t s : string) :
  String.prefix t s = true -> exists r, s = t +:+ r.
Proof.
  revert s. induction t as [| a t IH]; intros s H; [exists s; reflexivity |].
  destruct s as [| b s]; [discriminate |]. cbn in H.
  destruct (ascii_dec a b) as [-> | _]; [| discriminate].
  destruct (IH s H) as [r ->]. exists r. reflexivity.
Qed.

Lemma split_first (sep : ascii) (s : string) :
  exists piece pieces,
    JsString.split sep s = piece :: pieces
    /\ ~ In sep (list_ascii_of_string piece)
    /\ exists rest, s = piece +:+ rest
                    /\ (rest = "" \/ exists r, rest = String sep r).
Proof.
  induction s as [| c s (piece & pieces & E & Hp & rest & Hs & Hrest)]; cbn.
  - exists "", []. repeat split; [tauto |]. exists "". split; [reflexivity | tauto].
  - destruct (Ascii.eqb_spec c sep) as [-> | Hne].
    + exists "", (JsString.split sep s). repeat split; [cbn; tauto |].
      exists (String sep s). split; [reflexivity |]. right. eexists. reflexivity.
    + rewrite E. exists (String c piece), pieces.
      repeat split; [cbn; intuition congruence |].
      exists rest. split; [rewrite Hs at 1; reflexivity | exact Hrest].
Qed.

(** X18. A request [requireAuth] lets through has a header that is
    "Bearer ", a token that is not empty and holds no space, and then
    nothing or a space and any text; it is this token that [jwt.verify]
    accepted, and what follows it in the header is ignored. *)
Theorem requireAuth_reads_the_second_word
    (config : Config.t)
    (jwt_verify : string -> string -> Jwt.VerifyOptions -> Jwt.verified)
    (user_findUnique : Z -> string + option User.t)
    (req : Request.t) (st : State) :
  fst (fst (requireAuth config jwt_verify user_findUnique req st)) = next ->
  exists (token rest : string) (userId : Z),
    Request.authorization req = Some ("Bearer " +:+ token +:+ rest)
    /\ token <> ""
    /\ ~ In " "%char (list_ascii_of_string token)
    /\ (rest = "" \/ exists r, rest = String " " r)
    /\ jwt_verify token (Config.secret (Config.jwt config)) (verifyOptions config)
       = Jwt.Payload (Some userId).
Proof.
  rewrite requireAuth_run.
  destruct (JsString.truthy (Request.authorization req)) as [authHeader |] eqn:Hh;
    [| discriminate].
  apply truthy_Some in Hh as [Hh _].
  destruct (JsString.startsWith "Bearer " authHeader) eqn:Hb; [| discriminate].
  apply prefix_app in Hb as [r ->]. cbn [negb].
  destruct (split_first " " r) as (piece & pieces & E & Hp & rest & Hs & Hrest).
  change (JsString.split " " ("Bearer " +:+ r))
    with ("Bearer" :: JsString.split " " r).
  rewrite E. cbn [lookup list_lookup].
  destruct (JsString.truthy (Some piece)) as [token |] eqn:Ht; [| discriminate].
  apply truthy_Some in Ht as [[= ->] Hne].
  destruct (jwt_verify token _ _) as [[userId |] | | | m] eqn:Hv; try discriminate.
  intros _. exists token, rest, userId.
  split; [rewrite Hh, Hs; reflexivity |]. tauto.
Qed.

Lemma requireAuth_reads_the_second_word_witness :
  exists (token rest : string) (userId : Z),
    Request.authorization (Session.request (Some "Bearer doc and more"))
    = Some ("Bearer " +:+ token +:+ rest)
    /\ token <> ""
    /\ ~ In " "%char (list_ascii_of_string token)
    /\ (rest = "" \/ exists r, rest = String " " r)
    /\ Session.jwt_verify token (Config.secret (Config.jwt Deploy.config))
                          (verifyOptions Deploy.config)
       = Jwt.Payload (Some userId).
Proof.
  apply (requireAuth_reads_the_second_word Deploy.config Session.jwt_verify
           Session.user_findUnique
           (Session.request (Some "Bearer doc and more")) Seed.up).
  reflexivity.
Defined.

(** ** Numerals in the environment *)

(** X19. A variable whose value is the decimal numeral of an integer from 1
    to 2^53 - 1, alone or followed by text that does not start with a digit,
    is read by [getEnvVarAsNumber] as that integer, whatever the default:
    what follows the digits is ignored, no error is thrown for it. *)
Theorem getEnvVarAsNumber_reads_the_leading_numeral
    (env : gmap string string) (name : string) (defaultValue : option number)
    (n : Z) (tail : string) :
  1 <= n < 2 ^ 53 ->
  tail = "" \/ (exists c t, tail = String c t /\ digitValue c = None) ->
  env !! name = Some (JsString.decimal n +:+ tail) ->
  Config.getEnvVarAsNumber env name defaultValue = inr (Fin n).
Proof.
  intros Hn Htail Henv. unfold Config.getEnvVarAsNumber. cbv zeta.
  rewrite Henv.
  replace (JsString.truthy (Some (JsString.decimal n +:+ tail)))
    with (Some (JsString.decimal n +:+ tail)).
  - rewrite (parseInt_decimal n tail Hn Htail). reflexivity.
  - unfold JsString.decimal.
    destruct (numeral_head (Z.to_nat n)) as (c & s & v & Hs & _); [lia |].
    rewrite Hs. reflexivity.
Qed.

Lemma getEnvVarAsNumber_reads_the_leading_numeral_witness :
  Config.getEnvVarAsNumber {[ "PORT" := JsString.decimal 8080 +:+ "abc" ]} "PORT"
                           (Some (Fin 4090))
  = inr (Fin 8080).
Proof.
  apply (getEnvVarAsNumber_reads_the_leading_numeral
           {[ "PORT" := JsString.decimal 8080 +:+ "abc" ]} "PORT" (Some (Fin 4090))
           8080 "abc").
  - lia.
  - right. exists "a"%char, "bc". split; reflexivity.
  - apply lookup_singleton_eq.
Defined.
